(** * Levenshtein.py: weighted edit distance and its backtrace

    A shallow embedding of the class [Levenshtein] of [src/Levenshtein.py]:
    the distance matrix built by [__edit_distance], the edit script
    recovered by [__backtrace], and the accessors [distance] and
    [edit_ops].

    Modelling choices.
    - Symbols are any type with decidable equality (Python [==] on the
      items of the two sequences); sequences are lists.
    - Costs are Python integers: unbounded, possibly negative, hence [Z].
    - The matrix is a list of rows, each row a list, read and written by
      index.  An index outside a list raises [IndexError] in Python; the
      embedding keeps that outcome.  All indices the code computes are
      non-negative (they come from [len] and [range], and [i - 1] is only
      evaluated behind [i != 0]), so they are natural numbers.
    - The [while] loop of the backtrace has no bound of its own: it is
      unrolled under a step budget, and [Running] is the outcome of a
      budget that ran out before the loop condition became false. *)

From Stdlib Require Import ZArith Lia Ascii String.
From stdpp Require Import base numbers list strings pretty.

Set Default Proof Using "Type".

(** ** Outcomes of Python code *)

Inductive outcome (X : Type) : Type :=
| Ok (x : X)
| IndexError
| Running.
Arguments Ok {X} x.
Arguments IndexError {X}.
Arguments Running {X}.

#[global] Instance outcome_ret : MRet outcome := fun _ x => Ok x.
#[global] Instance outcome_bind : MBind outcome := fun _ _ f c =>
  match c with
  | Ok x => f x
  | IndexError => IndexError
  | Running => Running
  end.

(** [for x in xs: body] over a loop-carried state. *)
Fixpoint for_each {S : Type} (xs : list nat) (body : nat -> S -> outcome S)
    (s : S) : outcome S :=
  match xs with
  | [] => Ok s
  | x :: xs' => s' ← body x s; for_each xs' body s'
  end.

(** Python's [range(lo, hi)]. *)
Definition range (lo hi : nat) : list nat := seq lo (hi - lo).

(** [b and c], where [c] is evaluated only when [b] is true. *)
Definition and_then (b : bool) (c : outcome bool) : outcome bool :=
  if b then c else Ok false.

(** ** Indexing *)

Abbreviation matrix := (list (list Z)).

(** [s[i]] *)
Definition getitem {X : Type} (s : list X) (i : nat) : outcome X :=
  match s !! i with
  | Some x => Ok x
  | None => IndexError
  end.

(** [D[i][j]] *)
Definition getitem2 (D : matrix) (i j : nat) : outcome Z :=
  row ← getitem D i; getitem row j.

(** [D[i][j] = v]: the row object is updated in place. *)
Definition setitem2 (D : matrix) (i j : nat) (v : Z) : outcome matrix :=
  row ← getitem D i;
  if decide (j < length row) then Ok (<[i := <[j := v]> row]> D)
  else IndexError.

(** ** Edit records *)

Inductive edit_type : Set := Match | Substitution | Deletion | Insertion.

#[global] Instance edit_type_eq_dec : EqDecision edit_type.
Proof. solve_decision. Defined.

(** The dictionary [{"type": ..., "i": ..., "j": ...}]. *)
Record edit_op : Set := Edit { op_type : edit_type; op_i : nat; op_j : nat }.

#[global] Instance edit_op_eq_dec : EqDecision edit_op.
Proof. solve_decision. Defined.

(** The cost triple [(insertion, deletion, substitution)]. *)
Definition cost_model : Type := (Z * Z * Z)%type.

Definition default_costs : cost_model := (1, 1, 1)%Z.

(** ** The class *)

Section Levenshtein.
Context {A : Type} `{EqDecision A}.

(** [__edit_distance]: lines 98-138. *)
Definition __edit_distance (source target : list A) (costs : cost_model)
    : outcome matrix :=
  let rows := length source + 1 in
  let cols := length target + 1 in
  let '(insertion_cost, deletion_cost, substitution_cost) := costs in
  let D := replicate rows (replicate cols 0%Z) in
  D ← for_each (range 0 rows)
        (fun i D => setitem2 D i 0 (Z.of_nat i * deletion_cost)) D;
  D ← for_each (range 0 cols)
        (fun j D => setitem2 D 0 j (Z.of_nat j * insertion_cost)) D;
  for_each (range 1 rows) (fun i D =>
    for_each (range 1 cols) (fun j D =>
      a ← getitem source (i - 1);
      b ← getitem target (j - 1);
      if bool_decide (a = b) then
        d ← getitem2 D (i - 1) (j - 1);
        setitem2 D i j d
      else
        l ← getitem2 D i (j - 1);
        u ← getitem2 D (i - 1) j;
        d ← getitem2 D (i - 1) (j - 1);
        let insertion := (l + insertion_cost)%Z in
        let deletion := (u + deletion_cost)%Z in
        let substitution := (d + substitution_cost)%Z in
        setitem2 D i j (Z.min (Z.min insertion deletion) substitution))
      D) D.

(** The state carried by the [while] loop of [__backtrace]. *)
Definition bt_state : Type := (nat * nat * list edit_op)%type.

(** The four tests of the [if]/[elif] chain, lines 71-88. *)
Definition guard (D : matrix) (costs : cost_model) (i j : nat)
    (current_cost : Z) (ty : edit_type) : outcome bool :=
  let '(insertion_cost, deletion_cost, substitution_cost) := costs in
  match ty with
  | Match =>
      and_then (negb (i =? 0) && negb (j =? 0))
        (d ← getitem2 D (i - 1) (j - 1); Ok (current_cost =? d)%Z)
  | Substitution =>
      and_then (negb (i =? 0) && negb (j =? 0))
        (d ← getitem2 D (i - 1) (j - 1);
         Ok (current_cost =? d + substitution_cost)%Z)
  | Deletion =>
      and_then (negb (i =? 0))
        (d ← getitem2 D (i - 1) j; Ok (current_cost =? d + deletion_cost)%Z)
  | Insertion =>
      and_then (negb (j =? 0))
        (d ← getitem2 D i (j - 1); Ok (current_cost =? d + insertion_cost)%Z)
  end.

(** One iteration of the loop body, lines 69-91.  When no test holds the
    body does nothing: there is no [else]. *)
Definition backtrace_step (D : matrix) (costs : cost_model) (st : bt_state)
    : outcome bt_state :=
  let '(i, j, edits) := st in
  current_cost ← getitem2 D i j;
  is_match ← guard D costs i j current_cost Match;
  if is_match : bool then
    Ok (i - 1, j - 1, edits ++ [Edit Match (i - 1) (j - 1)])
  else
    is_subst ← guard D costs i j current_cost Substitution;
    if is_subst : bool then
      Ok (i - 1, j - 1, edits ++ [Edit Substitution (i - 1) (j - 1)])
    else
      is_del ← guard D costs i j current_cost Deletion;
      if is_del : bool then
        Ok (i - 1, j, edits ++ [Edit Deletion (i - 1) j])
      else
        is_ins ← guard D costs i j current_cost Insertion;
        if is_ins : bool then
          Ok (i, j - 1, edits ++ [Edit Insertion i (j - 1)])
        else
          Ok (i, j, edits).

(** [while not (i == 0 and j == 0): ...], unrolled at most [fuel] times. *)
Fixpoint backtrace_loop (fuel : nat) (D : matrix) (costs : cost_model)
    (st : bt_state) : outcome bt_state :=
  let '(i, j, _) := st in
  if (i =? 0) && (j =? 0) then Ok st
  else
    match fuel with
    | 0 => Running
    | S fuel' =>
        st' ← backtrace_step D costs st;
        backtrace_loop fuel' D costs st'
    end.

(** [__backtrace]: lines 51-96. *)
Definition __backtrace (fuel : nat) (source target : list A)
    (costs : cost_model) (D : matrix) : outcome (list edit_op) :=
  st ← backtrace_loop fuel D costs (length source, length target, []);
  Ok (rev st.2).

Record Levenshtein : Type := {
  source : list A;
  target : list A;
  costs : cost_model;
  D : matrix;
  edits : list edit_op
}.

(** [__init__]: lines 44-49. *)
Definition __init__ (fuel : nat) (source target : list A)
    (costs : cost_model) : outcome Levenshtein :=
  D ← __edit_distance source target costs;
  edits ← __backtrace fuel source target costs D;
  Ok {| source := source; target := target; costs := costs;
        D := D; edits := edits |}.

(** [distance]: [self.D[-1][-1]], the last item of the last row. *)
Definition distance (self : Levenshtein) : outcome Z :=
  match last (D self) with
  | Some row => match last row with Some v => Ok v | None => IndexError end
  | None => IndexError
  end.

(** [edit_ops] *)
Definition edit_ops (self : Levenshtein) : list edit_op := edits self.

End Levenshtein.

Arguments Levenshtein : clear implicits.

(** ** Edit scripts and their cost *)

Definition cost_ins (c : cost_model) : Z := c.1.1.
Definition cost_del (c : cost_model) : Z := c.1.2.
Definition cost_sub (c : cost_model) : Z := c.2.

Definition nonneg_costs (c : cost_model) : Prop :=
  (0 <= cost_ins c)%Z /\ (0 <= cost_del c)%Z /\ (0 <= cost_sub c)%Z.

(** Match is free, the other operations cost what the cost model says. *)
Definition op_cost (c : cost_model) (ty : edit_type) : Z :=
  match ty with
  | Match => 0
  | Substitution => cost_sub c
  | Deletion => cost_del c
  | Insertion => cost_ins c
  end.

Definition script_cost (c : cost_model) (ops : list edit_type) : Z :=
  foldr (fun ty acc => (op_cost c ty + acc)%Z) 0%Z ops.

Section Scripts.
Context {A : Type} `{EqDecision A}.

(** Replaying a script against [src], reading what is written from [tgt]:
    Match keeps the source symbol and steps over one symbol on each side,
    Substitution writes the target symbol and steps over one symbol on
    each side, Deletion drops a source symbol, Insertion writes a target
    symbol.  A script that asks for a symbol that is not there, or that
    leaves symbols unread, has no result. *)
Fixpoint replay (ops : list edit_type) (src tgt : list A)
    : option (list A) :=
  match ops with
  | [] =>
      match src, tgt with
      | [], [] => Some []
      | _, _ => None
      end
  | Match :: ops' =>
      match src, tgt with
      | a :: src', _ :: tgt' => cons a <$> replay ops' src' tgt'
      | _, _ => None
      end
  | Substitution :: ops' =>
      match src, tgt with
      | _ :: src', b :: tgt' => cons b <$> replay ops' src' tgt'
      | _, _ => None
      end
  | Deletion :: ops' =>
      match src with
      | _ :: src' => replay ops' src' tgt
      | [] => None
      end
  | Insertion :: ops' =>
      match tgt with
      | b :: tgt' => cons b <$> replay ops' src tgt'
      | [] => None
      end
  end.

(** The script turns [s] into [t]. *)
Definition transforms (ops : list edit_type) (s t : list A) : Prop :=
  replay ops s t = Some t.

(** [v] is the least cost of a script that turns [s] into [t]. *)
Definition min_cost (c : cost_model) (s t : list A) (v : Z) : Prop :=
  (exists ops, transforms ops s t /\ script_cost c ops = v) /\
  (forall ops, transforms ops s t -> (v <= script_cost c ops)%Z).

(** The same scripts as derivations, indexed by their cost. *)
Inductive aligned (c : cost_model) : list A -> list A -> Z -> Prop :=
| aligned_nil : aligned c [] [] 0
| aligned_match a s t k :
    aligned c s t k -> aligned c (a :: s) (a :: t) k
| aligned_subst a b s t k :
    aligned c s t k -> aligned c (a :: s) (b :: t) (k + cost_sub c)
| aligned_delete a s t k :
    aligned c s t k -> aligned c (a :: s) t (k + cost_del c)
| aligned_insert b s t k :
    aligned c s t k -> aligned c s (b :: t) (k + cost_ins c).

(** The value the recurrence of lines 113, 117 and 122-135 gives to the
    cell of two prefixes, each listed from its last symbol back. *)
Fixpoint lev (c : cost_model) (s : list A) : list A -> Z :=
  match s with
  | [] => fun t => (Z.of_nat (length t) * cost_ins c)%Z
  | a :: s' =>
      fix lev_row (t : list A) : Z :=
        match t with
        | [] => (Z.of_nat (length (a :: s')) * cost_del c)%Z
        | b :: t' =>
            if bool_decide (a = b) then lev c s' t'
            else Z.min (Z.min (lev_row t' + cost_ins c)
                              (lev c s' (b :: t') + cost_del c))
                       (lev c s' t' + cost_sub c)
        end
  end.

(** The value of cell [(i, j)] for [source] and [target]. *)
Definition cell_value (c : cost_model) (source target : list A)
    (i j : nat) : Z :=
  lev c (rev (take i source)) (rev (take j target)).

End Scripts.

(** ** Predicates used in the statements *)

(** A matrix of [rows] rows of [cols] cells each. *)
Definition shaped (rows cols : nat) (D : matrix) : Prop :=
  length D = rows /\ forall i row, D !! i = Some row -> length row = cols.

(** Where a record of each type leaves the cursor. *)
Definition moved (ty : edit_type) (i j i' j' : nat) : Prop :=
  match ty with
  | Match | Substitution => i = S i' /\ j = S j'
  | Deletion => i = S i' /\ j = j'
  | Insertion => i = i' /\ j = S j'
  end.

(** The index ranges of a record, for sequences of lengths [m] and [n]. *)
Definition in_range (m n : nat) (e : edit_op) : Prop :=
  match op_type e with
  | Match | Substitution => op_i e < m /\ op_j e < n
  | Deletion => op_i e < m /\ op_j e <= n
  | Insertion => op_i e <= m /\ op_j e < n
  end.

Section Predicates.
Context {A : Type} `{EqDecision A}.
Implicit Types (s t : list A) (c : cost_model) (D : matrix).

(** Every cell of the matrix holds the value the recurrence gives it. *)
Definition follows_recurrence s t c D : Prop :=
  forall i j, i <= length s -> j <= length t ->
    getitem2 D i j = Ok (cell_value c s t i j).

(** The cells that hold their final value when the fill loops reach
    cell [(k, l)]: the rows above [k], column 0, and row [k] left of
    [l]. *)
Definition filled s t c D (k l : nat) : Prop :=
  shaped (length s + 1) (length t + 1) D /\
  forall i j, i <= length s -> j <= length t ->
    i < k \/ j = 0 \/ (i = k /\ j < l) ->
    getitem2 D i j = Ok (cell_value c s t i j).

(** [Levenshtein(s, t, c).distance()]: construct, then ask.  A budget of
    [len(s) + len(t)] loop iterations is enough for the backtrace. *)
Definition distance_of s t c : outcome Z :=
  L ← __init__ (length s + length t) s t c; distance L.

End Predicates.

(** ** The backtrace step as the specification words it *)

(** The order in which the tests are listed. *)
Definition tie_break_order : list edit_type :=
  [Match; Substitution; Deletion; Insertion].

(** The cell a record of each type moves to. *)
Definition move (ty : edit_type) (i j : nat) : nat * nat :=
  match ty with
  | Match | Substitution => (i - 1, j - 1)
  | Deletion => (i - 1, j)
  | Insertion => (i, j - 1)
  end.

(** The first test of the list that holds, if any. *)
Fixpoint first_holding (tests : list edit_type)
    (holds : edit_type -> outcome bool) : outcome (option edit_type) :=
  match tests with
  | [] => Ok None
  | ty :: rest =>
      b ← holds ty;
      if b : bool then Ok (Some ty) else first_holding rest holds
  end.

(** One step: the first test that holds decides the record and the move. *)
Definition step_by_order (D : matrix) (c : cost_model) (st : bt_state)
    : outcome bt_state :=
  let '(i, j, edits) := st in
  current_cost ← getitem2 D i j;
  chosen ← first_holding tie_break_order (guard D c i j current_cost);
  match chosen with
  | Some ty => let '(i', j') := move ty i j in
               Ok (i', j', edits ++ [Edit ty i' j'])
  | None => Ok (i, j, edits)
  end.

(** ** Fixtures *)

(** A Python string as the list of its characters. *)
Definition str (s : string) : list ascii := list_ascii_of_string s.

(** A matrix for [source = ""], [target = "a"] whose cell [(0, 1)] was
    overwritten: no test of the backtrace holds there. *)
Definition corrupt_matrix : matrix := [[0; 5]]%Z.

(** ** The trace of the backtrace *)

(** The cell a record of each type is left from, going forward. *)
Definition advance (ty : edit_type) (i j : nat) : nat * nat :=
  match ty with
  | Match | Substitution => (S i, S j)
  | Deletion => (S i, j)
  | Insertion => (i, S j)
  end.

(** Reading a script forward from cell [(i, j)]: every record must carry
    the cell it is read at; the result is the cell reached. *)
Fixpoint path_end (i j : nat) (ops : list edit_op) : option (nat * nat) :=
  match ops with
  | [] => Some (i, j)
  | e :: ops' =>
      if decide (op_i e = i /\ op_j e = j) then
        let '(i', j') := advance (op_type e) i j in path_end i' j' ops'
      else None
  end.

(** The number of records of one type. *)
Definition count_type (ty : edit_type) (ops : list edit_op) : nat :=
  length (filter (fun e => op_type e = ty) ops).

Section Trace.
Context {A : Type} `{EqDecision A}.
Implicit Types (s t : list A).

(** What the step taken at cell [(i, j)] says about the record [e] it
    appends: where it moves, and that a cell whose two symbols are equal
    is left by a Match. *)
Definition step_fact s t (i j : nat) (e : edit_op) : Prop :=
  moved (op_type e) i j (op_i e) (op_j e) /\
  forall i0 j0 a, i = S i0 -> j = S j0 ->
    s !! i0 = Some a -> t !! j0 = Some a -> op_type e = Match.

(** The records appended from cell [(i, j)] down to the origin, in the
    order the loop appends them. *)
Fixpoint walk s t (i j : nat) (es : list edit_op) : Prop :=
  match es with
  | [] => i = 0 /\ j = 0
  | e :: es' => step_fact s t i j e /\ walk s t (op_i e) (op_j e) es'
  end.

End Trace.

(** ** Presentation *)

(** The text written to standard output so far. *)
Abbreviation stdout := (list ascii).

Definition newline : ascii := "010"%char.

(** [print(x, end=e)] *)
Definition print (x e : list ascii) (out : stdout) : stdout := out ++ x ++ e.

(** A field of width [w], as ["%2d"] and ["%-13s"] fill it: padded with
    spaces on the left or on the right, and never cut. *)
Definition rjust (w : nat) (x : list ascii) : list ascii :=
  replicate (w - length x) " "%char ++ x.

Definition ljust (w : nat) (x : list ascii) : list ascii :=
  x ++ replicate (w - length x) " "%char.

(** An integer as ["%d"] writes it. *)
Definition decimal (v : Z) : list ascii := str (pretty v).

(** The string stored under ["type"]. *)
Definition type_name (ty : edit_type) : list ascii :=
  match ty with
  | Match => str "Match"
  | Substitution => str "Substitution"
  | Deletion => str "Deletion"
  | Insertion => str "Insertion"
  end.

(** [for x in xs: body] over the items of a sequence. *)
Fixpoint for_items {X S : Type} (xs : list X) (body : X -> S -> outcome S)
    (s : S) : outcome S :=
  match xs with
  | [] => Ok s
  | x :: xs' => s' ← body x s; for_items xs' body s'
  end.

(** [print_distance_matrix]: lines 150-170.  The two sequences are
    strings here: ["--" + self.target] is a string concatenation. *)
Definition print_distance_matrix (self : Levenshtein ascii) (out : stdout)
    : outcome stdout :=
  let rows := length (source self) + 1 in
  let cols := length (target self) + 1 in
  let first_row := str "--" ++ target self in
  let first_column := str "-" ++ source self in
  out ← for_items first_row
          (fun i out => Ok (print (rjust 2 [i] ++ str " ") [] out)) out;
  let out := print [] [newline] out in
  for_each (range 0 rows) (fun i out =>
    ch ← getitem first_column i;
    let out := print (rjust 2 [ch] ++ str " ") [] out in
    out ← for_each (range 0 cols) (fun j out =>
            v ← getitem2 (D self) i j;
            Ok (print (rjust 2 (decimal v) ++ str " ") [] out)) out;
    Ok (print [] [newline] out)) out.

(** One line of the table of [print_edit_ops]:
    ["%-13s %2d %2d\n" % (op["type"], op["i"], op["j"])]. *)
Definition edit_line (op : edit_op) : list ascii :=
  ljust 13 (type_name (op_type op)) ++ str " " ++
  rjust 2 (decimal (Z.of_nat (op_i op))) ++ str " " ++
  rjust 2 (decimal (Z.of_nat (op_j op))) ++ [newline].

(** [print_edit_ops]: lines 172-179. *)
Definition print_edit_ops {A : Type} (self : Levenshtein A) (out : stdout)
    : stdout :=
  let out :=
    print (ljust 13 (str "Type") ++ str " " ++ rjust 2 (str "i") ++
           str " " ++ rjust 2 (str "j")) [newline] out in
  let out := print (replicate 20 "-"%char) [newline] out in
  foldl (fun out op => print (edit_line op) [] out) out (edits self).

(** The text as a Python string, to compare with the docstring. *)
Definition text (out : stdout) : string := string_of_list_ascii out.

(** Lines put one after the other, each with its line end. *)
Definition unlines (ls : list (list ascii)) : list ascii :=
  concat ((fun l => l ++ [newline]) <$> ls).

(** The lines of the grid: a header over the target, then one line for
    the empty prefix and for each source symbol. *)
Definition matrix_lines (s t : list ascii) (D : matrix)
    : list (list ascii) :=
  concat ((fun ch => rjust 2 [ch] ++ str " ") <$> (str "--" ++ t)) ::
  zip_with (fun ch row =>
              (rjust 2 [ch] ++ str " ") ++
              concat ((fun v => rjust 2 (decimal v) ++ str " ") <$> row))
    (str "-" ++ s) D.

(** The two lines above the table of [print_edit_ops]. *)
Definition edit_ops_heading : list ascii :=
  unlines [str "Type           i  j"; str "--------------------"].

(** * Proofs *)

(** ** Scripts and derivations *)

Section ScriptFacts.
Context {A : Type} `{EqDecision A}.
Implicit Types (s t u : list A) (c : cost_model) (k : Z).

Lemma aligned_cost_eq c s t k k' :
  aligned c s t k -> k = k' -> aligned c s t k'.
Proof. by intros ? <-. Qed.

Lemma aligned_of_script c ops : forall s t,
  transforms ops s t -> aligned c s t (script_cost c ops).
Proof.
  unfold transforms.
  induction ops as [|ty ops IH]; intros s t Hr.
  - destruct s, t; simplify_eq/=. constructor.
  - destruct ty; simpl in Hr.
    + destruct s as [|a s], t as [|b t]; simplify_eq/=.
      destruct (replay ops s t) as [out|] eqn:E; simplify_eq/=.
      eapply aligned_cost_eq; [apply aligned_match, IH, E|lia].
    + destruct s as [|a s], t as [|b t]; simplify_eq/=.
      destruct (replay ops s t) as [out|] eqn:E; simplify_eq/=.
      eapply aligned_cost_eq; [apply aligned_subst, IH, E|lia].
    + destruct s as [|a s]; simplify_eq/=.
      eapply aligned_cost_eq; [apply aligned_delete, IH, Hr|lia].
    + destruct t as [|b t]; simplify_eq/=.
      destruct (replay ops s t) as [out|] eqn:E; simplify_eq/=.
      eapply aligned_cost_eq; [apply aligned_insert, IH, E|lia].
Qed.

Lemma script_of_aligned c s t k :
  aligned c s t k ->
  exists ops, transforms ops s t /\ script_cost c ops = k.
Proof.
  unfold transforms.
  induction 1 as [|a s t k _ [ops [Hr Hc]]|a b s t k _ [ops [Hr Hc]]
                 |a s t k _ [ops [Hr Hc]]|b s t k _ [ops [Hr Hc]]].
  - by exists [].
  - exists (Match :: ops). simpl. rewrite Hr. done.
  - exists (Substitution :: ops). simpl. rewrite Hr. split; [done|lia].
  - exists (Deletion :: ops). simpl. split; [done|lia].
  - exists (Insertion :: ops). simpl. rewrite Hr. split; [done|lia].
Qed.

Lemma min_cost_aligned c s t v :
  min_cost c s t v <->
  aligned c s t v /\ forall k, aligned c s t k -> (v <= k)%Z.
Proof.
  split.
  - intros [[ops [Ht <-]] Hmin]. split; [by apply aligned_of_script|].
    intros k [ops' [Ht' <-]]%script_of_aligned. by apply Hmin.
  - intros [Ha Hmin]. split; [by apply script_of_aligned|].
    intros ops Ht. by apply Hmin, aligned_of_script.
Qed.

Lemma aligned_app c s1 t1 k1 s2 t2 k2 :
  aligned c s1 t1 k1 -> aligned c s2 t2 k2 ->
  aligned c (s1 ++ s2) (t1 ++ t2) (k1 + k2).
Proof.
  intros H1 H2. induction H1; simpl.
  - by eapply aligned_cost_eq.
  - by apply aligned_match.
  - eapply aligned_cost_eq; [by apply aligned_subst|lia].
  - eapply aligned_cost_eq; [by apply aligned_delete|lia].
  - eapply aligned_cost_eq; [by apply aligned_insert|lia].
Qed.

Lemma aligned_rev c s t k :
  aligned c s t k -> aligned c (rev s) (rev t) k.
Proof.
  induction 1 as [|a s t k _ IH|a b s t k _ IH|a s t k _ IH|b s t k _ IH];
    simpl.
  - constructor.
  - eapply aligned_cost_eq;
      [eapply aligned_app; [exact IH|apply aligned_match, aligned_nil]|lia].
  - eapply aligned_cost_eq;
      [eapply aligned_app; [exact IH|apply aligned_subst, aligned_nil]|lia].
  - rewrite <- (app_nil_r (rev t)). eapply aligned_cost_eq;
      [eapply aligned_app; [exact IH|apply aligned_delete, aligned_nil]|lia].
  - rewrite <- (app_nil_r (rev s)). eapply aligned_cost_eq;
      [eapply aligned_app; [exact IH|apply aligned_insert, aligned_nil]|lia].
Qed.

Lemma aligned_rev_iff c s t k :
  aligned c (rev s) (rev t) k <-> aligned c s t k.
Proof.
  split; [|apply aligned_rev].
  intros H0%aligned_rev. by rewrite !rev_involutive in H0.
Qed.

(** Two scripts in a row are never cheaper than one script. *)
Lemma aligned_trans c s t k1 :
  nonneg_costs c ->
  aligned c s t k1 -> forall u k2, aligned c t u k2 ->
  exists k, aligned c s u k /\ (k <= k1 + k2)%Z.
Proof.
  intros (Hi & Hd & Hs).
  induction 1 as [|a s t k1 _ IH|a b s t k1 _ IH|a s t k1 _ IH
                 |b s t k1 H1 IH]; intros u k2 H2.
  - exists k2. split; [done|lia].
  - remember (a :: t) as t0 eqn:Et.
    induction H2 as [|a' t' u k2 H2 _|a' b' t' u k2 H2 _|a' t' u k2 H2 _
                    |b' t' u k2 H2 IH2]; simplify_eq.
    + destruct (IH _ _ H2) as (k & Hk & Hle).
      exists k. split; [by apply aligned_match|lia].
    + destruct (IH _ _ H2) as (k & Hk & Hle).
      exists (k + cost_sub c)%Z. split; [by apply aligned_subst|lia].
    + destruct (IH _ _ H2) as (k & Hk & Hle).
      exists (k + cost_del c)%Z. split; [by apply aligned_delete|lia].
    + destruct (IH2 eq_refl) as (k & Hk & Hle).
      exists (k + cost_ins c)%Z. split; [by apply aligned_insert|lia].
  - remember (b :: t) as t0 eqn:Et.
    induction H2 as [|a' t' u k2 H2 _|a' b' t' u k2 H2 _|a' t' u k2 H2 _
                    |b' t' u k2 H2 IH2]; simplify_eq.
    + destruct (IH _ _ H2) as (k & Hk & Hle).
      exists (k + cost_sub c)%Z. split; [by apply aligned_subst|lia].
    + destruct (IH _ _ H2) as (k & Hk & Hle).
      exists (k + cost_sub c)%Z. split; [by apply aligned_subst|lia].
    + destruct (IH _ _ H2) as (k & Hk & Hle).
      exists (k + cost_del c)%Z. split; [by apply aligned_delete|lia].
    + destruct (IH2 eq_refl) as (k & Hk & Hle).
      exists (k + cost_ins c)%Z. split; [by apply aligned_insert|lia].
  - destruct (IH _ _ H2) as (k & Hk & Hle).
    exists (k + cost_del c)%Z. split; [by apply aligned_delete|lia].
  - remember (b :: t) as t0 eqn:Et.
    induction H2 as [|a' t' u k2 H2 _|a' b' t' u k2 H2 _|a' t' u k2 H2 _
                    |b' t' u k2 H2 IH2]; simplify_eq.
    + destruct (IH _ _ H2) as (k & Hk & Hle).
      exists (k + cost_ins c)%Z. split; [by apply aligned_insert|lia].
    + destruct (IH _ _ H2) as (k & Hk & Hle).
      exists (k + cost_ins c)%Z. split; [by apply aligned_insert|lia].
    + destruct (IH _ _ H2) as (k & Hk & Hle).
      exists k. split; [done|lia].
    + destruct (IH2 eq_refl) as (k & Hk & Hle).
      exists (k + cost_ins c)%Z. split; [by apply aligned_insert|lia].
Qed.

End ScriptFacts.

(** ** The recurrence *)

Section RecurrenceFacts.
Context {A : Type} `{EqDecision A}.
Implicit Types (s t : list A) (c : cost_model) (k : Z).

Lemma lev_nil_l c t : lev c [] t = (Z.of_nat (length t) * cost_ins c)%Z.
Proof. done. Qed.

Lemma lev_nil_r c s : lev c s [] = (Z.of_nat (length s) * cost_del c)%Z.
Proof. by destruct s. Qed.

Lemma lev_cons_cons c a b s t :
  lev c (a :: s) (b :: t) =
  if bool_decide (a = b) then lev c s t
  else Z.min (Z.min (lev c (a :: s) t + cost_ins c)
                    (lev c s (b :: t) + cost_del c))
             (lev c s t + cost_sub c).
Proof. done. Qed.

(** Dropping the last target symbol costs at most one deletion more. *)
Lemma lev_shorter_target c s : nonneg_costs c ->
  forall t b, (lev c s t <= lev c s (b :: t) + cost_del c)%Z.
Proof.
  intros (Hi & Hd & Hs). induction s as [|a s IH]; intros t b.
  - rewrite !lev_nil_l. simpl length. lia.
  - assert (forall t', lev c (a :: s) t' <= lev c s t' + cost_del c)%Z
      as Hdrop.
    { intros [|b' t'].
      - rewrite !lev_nil_r. simpl length. lia.
      - rewrite lev_cons_cons. case_bool_decide; [apply IH|lia]. }
    rewrite lev_cons_cons. case_bool_decide; [apply Hdrop|].
    specialize (Hdrop t). specialize (IH t b). lia.
Qed.

(** Dropping the last source symbol costs at most one insertion more. *)
Lemma lev_shorter_source c t : nonneg_costs c ->
  forall s a, (lev c s t <= lev c (a :: s) t + cost_ins c)%Z.
Proof.
  intros (Hi & Hd & Hs). induction t as [|b t IH]; intros s a.
  - rewrite !lev_nil_r. simpl length. lia.
  - assert (forall s', lev c s' (b :: t) <= lev c s' t + cost_ins c)%Z
      as Hdrop.
    { intros [|a' s'].
      - rewrite !lev_nil_l. simpl length. lia.
      - rewrite lev_cons_cons. case_bool_decide; [apply IH|lia]. }
    rewrite (lev_cons_cons c a b). case_bool_decide; [apply Hdrop|].
    specialize (Hdrop s). specialize (IH s a). lia.
Qed.

Lemma lev_delete_le c a s t : nonneg_costs c ->
  (lev c (a :: s) t <= lev c s t + cost_del c)%Z.
Proof.
  intros Hc. destruct t as [|b t].
  - rewrite !lev_nil_r. simpl length. lia.
  - rewrite lev_cons_cons. case_bool_decide; [|lia].
    by apply lev_shorter_target.
Qed.

Lemma lev_insert_le c b s t : nonneg_costs c ->
  (lev c s (b :: t) <= lev c s t + cost_ins c)%Z.
Proof.
  intros Hc. destruct s as [|a s].
  - rewrite !lev_nil_l. simpl length. lia.
  - rewrite lev_cons_cons. case_bool_decide; [|lia].
    by apply lev_shorter_source.
Qed.

(** No script is cheaper than the recurrence's value ... *)
Lemma lev_lower c s t k :
  nonneg_costs c -> aligned c s t k -> (lev c s t <= k)%Z.
Proof.
  intros Hc.
  induction 1 as [|a s t k _ IH|a b s t k _ IH|a s t k _ IH|b s t k _ IH].
  - done.
  - rewrite lev_cons_cons. by rewrite bool_decide_eq_true_2.
  - destruct Hc as (Hi & Hd & Hs).
    rewrite lev_cons_cons. case_bool_decide; lia.
  - pose proof (lev_delete_le c a s t Hc). lia.
  - pose proof (lev_insert_le c b s t Hc). lia.
Qed.

(** ... and one script costs exactly that much. *)
Lemma lev_upper c s : forall t, aligned c s t (lev c s t).
Proof.
  induction s as [|a s IHs]; induction t as [|b t IHt].
  - apply aligned_nil.
  - eapply aligned_cost_eq; [apply (aligned_insert c b), IHt|].
    rewrite !lev_nil_l. simpl length. lia.
  - eapply aligned_cost_eq; [apply (aligned_delete c a), (IHs [])|].
    rewrite !lev_nil_r. simpl length. lia.
  - rewrite lev_cons_cons. case_bool_decide as Hab.
    + subst b. apply aligned_match, IHs.
    + set (x := (lev c (a :: s) t + cost_ins c)%Z).
      set (y := (lev c s (b :: t) + cost_del c)%Z).
      set (z := (lev c s t + cost_sub c)%Z).
      assert (Z.min (Z.min x y) z = x \/ Z.min (Z.min x y) z = y \/
              Z.min (Z.min x y) z = z) as [-> | [-> | ->]] by lia.
      * apply aligned_insert, IHt.
      * apply aligned_delete, IHs.
      * apply aligned_subst, IHs.
Qed.

Lemma lev_min_cost c s t :
  nonneg_costs c -> min_cost c s t (lev c (rev s) (rev t)).
Proof.
  intros Hc. apply min_cost_aligned. split.
  - apply aligned_rev_iff, lev_upper.
  - intros k Hk. by apply lev_lower, aligned_rev.
Qed.

(** With equal insertion and deletion costs the recurrence is symmetric. *)
Lemma lev_sym c s : cost_ins c = cost_del c ->
  forall t, lev c s t = lev c t s.
Proof.
  intros Heq. induction s as [|a s IHs]; induction t as [|b t IHt].
  - done.
  - rewrite lev_nil_l, lev_nil_r. by rewrite Heq.
  - rewrite lev_nil_l, lev_nil_r. by rewrite Heq.
  - rewrite !lev_cons_cons, IHt, <- (IHs t), <- (IHs (b :: t)), Heq.
    repeat case_bool_decide; simplify_eq; [done|lia].
Qed.

Lemma cell_value_0_l c s t j :
  j <= length t -> cell_value c s t 0 j = (Z.of_nat j * cost_ins c)%Z.
Proof.
  intros Hj. unfold cell_value. rewrite take_0. simpl rev.
  by rewrite lev_nil_l, length_rev, length_take_le.
Qed.

Lemma cell_value_0_r c s t i :
  i <= length s -> cell_value c s t i 0 = (Z.of_nat i * cost_del c)%Z.
Proof.
  intros Hi. unfold cell_value. rewrite (take_0 t). simpl rev.
  by rewrite lev_nil_r, length_rev, length_take_le.
Qed.

Lemma cell_value_S_S c s t i j a b :
  s !! i = Some a -> t !! j = Some b ->
  cell_value c s t (S i) (S j) =
  if bool_decide (a = b) then cell_value c s t i j
  else Z.min (Z.min (cell_value c s t (S i) j + cost_ins c)
                    (cell_value c s t i (S j) + cost_del c))
             (cell_value c s t i j + cost_sub c).
Proof.
  intros Ha Hb. unfold cell_value.
  rewrite (take_S_r s i a Ha), (take_S_r t j b Hb), !rev_unit.
  apply lev_cons_cons.
Qed.

Lemma cell_value_last c s t :
  cell_value c s t (length s) (length t) = lev c (rev s) (rev t).
Proof. unfold cell_value. by rewrite !firstn_all. Qed.

End RecurrenceFacts.

(** ** Loops and indexing *)

Lemma for_each_seq_inv {S : Type} (P : nat -> S -> Prop)
    (body : nat -> S -> outcome S) (n : nat) : forall (lo : nat) (s : S),
  P lo s ->
  (forall k s0, lo <= k < lo + n -> P k s0 ->
     exists s1, body k s0 = Ok s1 /\ P (Datatypes.S k) s1) ->
  exists s', for_each (seq lo n) body s = Ok s' /\ P (lo + n) s'.
Proof.
  induction n as [|n IH]; intros lo s HP Hbody; simpl.
  - exists s. by rewrite Nat.add_0_r.
  - destruct (Hbody lo s) as (s1 & -> & HP1); [lia|done|]. simpl.
    destruct (IH (Datatypes.S lo) s1 HP1) as (s' & Hs' & HP').
    { intros k s0 Hk. apply Hbody. lia. }
    exists s'. split; [done|]. by replace (lo + Datatypes.S n) with
      (Datatypes.S lo + n) by lia.
Qed.

Lemma shaped_replicate rows cols v :
  shaped rows cols (replicate rows (replicate cols v)).
Proof.
  split; [apply length_replicate|].
  intros i row [-> _]%lookup_replicate. apply length_replicate.
Qed.

Lemma getitem_Ok {X : Type} (l : list X) i x :
  getitem l i = Ok x <-> l !! i = Some x.
Proof. unfold getitem. destruct (l !! i); naive_solver. Qed.

Lemma getitem2_Ok D i j v :
  getitem2 D i j = Ok v <->
  exists row, D !! i = Some row /\ row !! j = Some v.
Proof.
  unfold getitem2, getitem. destruct (D !! i) as [row|]; simpl.
  - destruct (row !! j) as [w|] eqn:E.
    + split; [intros [= <-]; eauto|]. intros (? & [= <-] & Hv). congruence.
    + split; [done|]. intros (? & [= <-] & Hv). congruence.
  - split; [done|]. by intros (? & ? & _).
Qed.

Lemma setitem2_shaped rows cols D i j v :
  shaped rows cols D -> i < rows -> j < cols ->
  exists D', setitem2 D i j v = Ok D' /\ shaped rows cols D' /\
    getitem2 D' i j = Ok v /\
    forall i' j', i' <> i \/ j' <> j ->
      getitem2 D' i' j' = getitem2 D i' j'.
Proof.
  intros [Hlen Hrow] Hi Hj.
  destruct (lookup_lt_is_Some_2 D i) as [row Hr]; [lia|].
  pose proof (Hrow _ _ Hr) as Hlr.
  exists (<[i := <[j := v]> row]> D). unfold setitem2, getitem.
  rewrite Hr. simpl. rewrite decide_True by lia. split; [done|].
  split; [|split].
  - split; [by rewrite length_insert|]. intros i' row'.
    destruct (decide (i = i')) as [<-|Hne].
    + rewrite list_lookup_insert_eq by lia. intros [= <-].
      by rewrite length_insert.
    + rewrite list_lookup_insert_ne by done. apply Hrow.
  - apply getitem2_Ok. exists (<[j := v]> row).
    rewrite !list_lookup_insert_eq by lia. done.
  - intros i' j' Hne. unfold getitem2, getitem.
    destruct (decide (i = i')) as [<-|Hne'].
    + rewrite list_lookup_insert_eq, Hr by lia. simpl.
      rewrite list_lookup_insert_ne; [done|].
      intros <-. by destruct Hne.
    + by rewrite list_lookup_insert_ne.
Qed.

(** ** The matrix built by [__edit_distance] *)

Section Construction.
Context {A : Type} `{EqDecision A}.
Implicit Types (s t : list A) (c : cost_model) (D : matrix).

(** Lines 112-113: the first loop fills column 0. *)
Lemma first_loop_spec rows cols cd D :
  shaped rows cols D -> 0 < cols ->
  exists D', for_each (range 0 rows)
      (fun i D => setitem2 D i 0 (Z.of_nat i * cd)%Z) D = Ok D' /\
    shaped rows cols D' /\
    forall i, i < rows -> getitem2 D' i 0 = Ok (Z.of_nat i * cd)%Z.
Proof.
  intros Hsh Hcols. unfold range. rewrite Nat.sub_0_r.
  apply (for_each_seq_inv (fun k D0 => shaped rows cols D0 /\
    forall i, i < k -> getitem2 D0 i 0 = Ok (Z.of_nat i * cd)%Z)).
  - split; [done|]. intros; lia.
  - intros k D0 Hk [Hsh0 Hcol].
    destruct (setitem2_shaped _ _ D0 k 0 (Z.of_nat k * cd)%Z Hsh0)
      as (D1 & -> & Hsh1 & Hget & Hother); [lia|lia|].
    exists D1. do 2 (split; [done|]). intros i Hi.
    destruct (decide (i = k)) as [->|Hne]; [done|].
    rewrite Hother by (by left). apply Hcol. lia.
Qed.

(** Lines 116-117: the second loop fills row 0 and keeps the rest of
    column 0. *)
Lemma second_loop_spec rows cols ci (f : nat -> Z) D :
  shaped rows cols D -> 0 < rows ->
  (forall i, i < rows -> getitem2 D i 0 = Ok (f i)) ->
  exists D', for_each (range 0 cols)
      (fun j D => setitem2 D 0 j (Z.of_nat j * ci)%Z) D = Ok D' /\
    shaped rows cols D' /\
    (forall j, j < cols -> getitem2 D' 0 j = Ok (Z.of_nat j * ci)%Z) /\
    (forall i, 0 < i < rows -> getitem2 D' i 0 = Ok (f i)).
Proof.
  intros Hsh Hrows Hcol. unfold range. rewrite Nat.sub_0_r.
  apply (for_each_seq_inv (fun k D0 => shaped rows cols D0 /\
    (forall j, j < k -> getitem2 D0 0 j = Ok (Z.of_nat j * ci)%Z) /\
    (forall i, 0 < i < rows -> getitem2 D0 i 0 = Ok (f i)))).
  - split; [done|]. split; [intros; lia|]. intros i Hi. apply Hcol. lia.
  - intros k D0 Hk (Hsh0 & Hrow0 & Hcol0).
    destruct (setitem2_shaped _ _ D0 0 k (Z.of_nat k * ci)%Z Hsh0)
      as (D1 & -> & Hsh1 & Hget & Hother); [lia|lia|].
    exists D1. do 2 (split; [done|]). split.
    + intros j Hj. destruct (decide (j = k)) as [->|Hne]; [done|].
      rewrite Hother by (by right). apply Hrow0. lia.
    + intros i Hi. rewrite Hother by (left; lia). by apply Hcol0.
Qed.

(** Lines 122-135: the body of the inner loop. *)
Lemma fill_cell_spec s t c D k l :
  1 <= k <= length s -> 1 <= l <= length t ->
  filled s t c D k l ->
  exists D',
    (a ← getitem s (k - 1);
     b ← getitem t (l - 1);
     if bool_decide (a = b) then
       d ← getitem2 D (k - 1) (l - 1);
       setitem2 D k l d
     else
       x ← getitem2 D k (l - 1);
       u ← getitem2 D (k - 1) l;
       d ← getitem2 D (k - 1) (l - 1);
       setitem2 D k l
         (Z.min (Z.min (x + cost_ins c) (u + cost_del c))
                (d + cost_sub c))) = Ok D' /\
    filled s t c D' k (S l).
Proof.
  intros Hk Hl [Hsh Hcells].
  destruct (lookup_lt_is_Some_2 s (k - 1)) as [a Ha]; [lia|].
  destruct (lookup_lt_is_Some_2 t (l - 1)) as [b Hb]; [lia|].
  rewrite (proj2 (getitem_Ok s _ a) Ha), (proj2 (getitem_Ok t _ b) Hb).
  simpl.
  pose proof (Hcells (k - 1) (l - 1)) as Hd.
  pose proof (Hcells k (l - 1)) as Hx.
  pose proof (Hcells (k - 1) l) as Hu.
  rewrite Hd, Hx, Hu by lia. simpl.
  pose proof (cell_value_S_S c s t (k - 1) (l - 1) a b Ha Hb) as Hrec.
  replace (S (k - 1)) with k in Hrec by lia.
  replace (S (l - 1)) with l in Hrec by lia.
  set (v := cell_value c s t k l) in *.
  assert (forall w, w = v ->
    exists D', setitem2 D k l w = Ok D' /\ filled s t c D' k (S l))
    as Hset.
  { intros w ->.
    destruct (setitem2_shaped _ _ D k l v Hsh)
      as (D1 & -> & Hsh1 & Hget & Hother); [lia|lia|].
    exists D1. split; [done|]. split; [done|]. intros i j Hi Hj Hij.
    destruct (decide (i = k /\ j = l)) as [[-> ->]|Hne]; [done|].
    rewrite Hother by lia. apply Hcells; lia. }
  case_bool_decide; apply Hset; by rewrite Hrec.
Qed.

Lemma filled_next_row s t c D k :
  filled s t c D k (length t + 1) -> filled s t c D (S k) 1.
Proof.
  intros [Hsh Hcells]. split; [done|]. intros i j Hi Hj Hij.
  apply Hcells; lia.
Qed.

(** [__edit_distance] returns a matrix of [m + 1] rows and [n + 1]
    columns whose cells follow the recurrence. *)
Lemma edit_distance_spec s t c :
  exists D, __edit_distance s t c = Ok D /\
    shaped (length s + 1) (length t + 1) D /\
    forall i j, i <= length s -> j <= length t ->
      getitem2 D i j = Ok (cell_value c s t i j).
Proof.
  destruct c as [[ci cd] cs]. unfold __edit_distance.
  set (m := length s). set (n := length t).
  destruct (first_loop_spec (m + 1) (n + 1) cd
              (replicate (m + 1) (replicate (n + 1) 0%Z)))
    as (D1 & -> & Hsh1 & Hcol1); [apply shaped_replicate|lia|].
  simpl.
  destruct (second_loop_spec (m + 1) (n + 1) ci
              (fun i => (Z.of_nat i * cd)%Z) D1 Hsh1)
    as (D2 & -> & Hsh2 & Hrow2 & Hcol2); [lia|done|].
  simpl.
  assert (filled s t (ci, cd, cs) D2 1 1) as Hfill.
  { split; [done|]. intros i j Hi Hj Hij.
    destruct (decide (i = 0)) as [->|Hi0].
    - rewrite cell_value_0_l by done. apply Hrow2. lia.
    - assert (j = 0) as -> by lia.
      rewrite cell_value_0_r by done. apply Hcol2. lia. }
  unfold range. replace (m + 1 - 1) with m by lia.
  replace (n + 1 - 1) with n by lia.
  edestruct (for_each_seq_inv (fun k D0 => filled s t (ci, cd, cs) D0 k 1))
    as (D3 & -> & Hsh3 & Hcells3); [exact Hfill| |].
  - intros k D0 Hk Hrow.
    edestruct (for_each_seq_inv
                 (fun l D' => filled s t (ci, cd, cs) D' k l))
      as (D' & -> & HD'); [exact Hrow| |].
    + intros l D' Hl Hcell.
      by apply (fill_cell_spec s t (ci, cd, cs) D' k l); [lia..|].
    + exists D'. split; [done|]. apply filled_next_row.
      by replace (length t + 1) with (1 + n) by (unfold n; lia).
  - exists D3. split; [done|]. split; [done|].
    intros i j Hi Hj. apply Hcells3; [done..|]. lia.
Qed.

End Construction.

(** ** The backtrace over a matrix that follows the recurrence *)

Lemma script_cost_app c ops1 ops2 :
  script_cost c (ops1 ++ ops2) = (script_cost c ops1 + script_cost c ops2)%Z.
Proof. induction ops1 as [|ty ops1 IH]; simpl; lia. Qed.

Lemma script_cost_rev c ops : script_cost c (rev ops) = script_cost c ops.
Proof.
  induction ops as [|ty ops IH]; [done|]. simpl rev.
  rewrite script_cost_app. simpl. lia.
Qed.

Lemma fmap_rev {X Y : Type} (f : X -> Y) (l : list X) :
  f <$> rev l = rev (f <$> l).
Proof.
  induction l as [|x l IH]; [done|]. simpl rev. by rewrite fmap_app, IH.
Qed.

Section Backtrace.
Context {A : Type} `{EqDecision A}.
Implicit Types (s t : list A) (c : cost_model) (D : matrix).

Lemma backtrace_step_spec s t c D i j edits :
  follows_recurrence s t c D ->
  i <= length s -> j <= length t -> ~ (i = 0 /\ j = 0) ->
  exists ty i' j',
    backtrace_step D c (i, j, edits) =
      Ok (i', j', edits ++ [Edit ty i' j']) /\
    guard D c i j (cell_value c s t i j) ty = Ok true /\
    moved ty i j i' j' /\
    cell_value c s t i j = (cell_value c s t i' j' + op_cost c ty)%Z.
Proof.
  intros HD Hi Hj Hij. unfold backtrace_step. rewrite (HD i j) by done.
  simpl. set (cur := cell_value c s t i j).
  destruct i as [|i], j as [|j]; [lia| | |].
  - assert (cur = cell_value c s t 0 j + cost_ins c)%Z as Hcur.
    { unfold cur. rewrite !cell_value_0_l by lia. lia. }
    destruct c as [[ci cd] cs]. unfold guard.
    replace (S j - 1) with j by lia. rewrite (HD 0 j) by lia. simpl.
    unfold cost_ins in Hcur. simpl in Hcur. rewrite Hcur, Z.eqb_refl.
    by exists Insertion, 0, j.
  - assert (cur = cell_value c s t i 0 + cost_del c)%Z as Hcur.
    { unfold cur. rewrite !cell_value_0_r by lia. lia. }
    destruct c as [[ci cd] cs]. unfold guard.
    replace (S i - 1) with i by lia. rewrite (HD i 0) by lia. simpl.
    unfold cost_del in Hcur. simpl in Hcur. rewrite Hcur, Z.eqb_refl.
    by exists Deletion, i, 0.
  - destruct (lookup_lt_is_Some_2 s i) as [a Ha]; [lia|].
    destruct (lookup_lt_is_Some_2 t j) as [b Hb]; [lia|].
    pose proof (cell_value_S_S c s t i j a b Ha Hb) as Hrec.
    fold cur in Hrec.
    destruct c as [[ci cd] cs]. unfold guard.
    replace (S i - 1) with i by lia. replace (S j - 1) with j by lia.
    rewrite (HD i j), (HD i (S j)), (HD (S i) j) by lia. simpl.
    unfold cost_ins, cost_del, cost_sub in Hrec. simpl in Hrec.
    set (d := cell_value (ci, cd, cs) s t i j) in *.
    set (u := cell_value (ci, cd, cs) s t i (S j)) in *.
    set (l := cell_value (ci, cd, cs) s t (S i) j) in *.
    destruct (Z.eqb_spec cur d) as [Hm|Hm].
    { exists Match, i, j. simpl. do 3 (split; [done|]). lia. }
    destruct (Z.eqb_spec cur (d + cs)) as [Hs|Hs].
    { by exists Substitution, i, j. }
    destruct (Z.eqb_spec cur (u + cd)) as [Hd|Hd].
    { by exists Deletion, i, (S j). }
    destruct (Z.eqb_spec cur (l + ci)) as [Hl|Hl].
    { by exists Insertion, (S i), j. }
    exfalso. case_bool_decide; lia.
Qed.

Lemma backtrace_loop_done fuel D c edits :
  backtrace_loop fuel D c (0, 0, edits) = Ok (0, 0, edits).
Proof. by destruct fuel. Qed.

Lemma backtrace_loop_S fuel D c i j edits :
  ~ (i = 0 /\ j = 0) ->
  backtrace_loop (S fuel) D c (i, j, edits) =
  (st' ← backtrace_step D c (i, j, edits); backtrace_loop fuel D c st').
Proof.
  intros Hij. cbn [backtrace_loop].
  replace ((i =? 0) && (j =? 0)) with false; [done|].
  symmetry. apply andb_false_iff. rewrite !Nat.eqb_neq. lia.
Qed.

Lemma backtrace_loop_0 D c i j edits :
  ~ (i = 0 /\ j = 0) -> backtrace_loop 0 D c (i, j, edits) = Running.
Proof.
  intros Hij. cbn [backtrace_loop].
  replace ((i =? 0) && (j =? 0)) with false; [done|].
  symmetry. apply andb_false_iff. rewrite !Nat.eqb_neq. lia.
Qed.

(** From any cell of the matrix the loop reaches the origin within
    [i + j] iterations; [es] lists the records in the order they are
    appended. *)
Lemma backtrace_loop_spec s t c D :
  follows_recurrence s t c D ->
  forall fuel i j edits,
    i <= length s -> j <= length t -> i + j <= fuel ->
    exists es,
      backtrace_loop fuel D c (i, j, edits) = Ok (0, 0, edits ++ es) /\
      script_cost c (op_type <$> es) = cell_value c s t i j /\
      Forall (in_range (length s) (length t)) es.
Proof.
  intros HD fuel.
  induction fuel as [|fuel IH]; intros i j edits Hi Hj Hfuel.
  - assert (i = 0) as -> by lia. assert (j = 0) as -> by lia.
    exists []. rewrite backtrace_loop_done, app_nil_r. done.
  - destruct (decide (i = 0 /\ j = 0)) as [[-> ->]|Hij].
    { exists []. rewrite backtrace_loop_done, app_nil_r. done. }
    destruct (backtrace_step_spec s t c D i j edits HD Hi Hj Hij)
      as (ty & i' & j' & Hstep & _ & Hmove & Hcost).
    assert (i' <= i /\ j' <= j /\ i' + j' < i + j) as (Hi' & Hj' & Hlt).
    { destruct ty; simpl in Hmove; lia. }
    destruct (IH i' j' (edits ++ [Edit ty i' j'])) as (es & He & Hc & Hr);
      [lia..|].
    exists (Edit ty i' j' :: es). split; [|split].
    + rewrite backtrace_loop_S, Hstep by done. simpl.
      by rewrite He, <- app_assoc.
    + rewrite fmap_cons. simpl. rewrite Hc. lia.
    + constructor; [|done]. unfold in_range. simpl.
      destruct ty; simpl in Hmove; lia.
Qed.

Lemma distance_getitem2 (L : Levenshtein A) rows cols :
  shaped (rows + 1) (cols + 1) (D L) ->
  distance L = getitem2 (D L) rows cols.
Proof.
  intros [Hlen Hrow]. unfold distance, getitem2, getitem.
  rewrite last_lookup, Hlen. replace (Init.Nat.pred (rows + 1)) with rows
    by lia.
  destruct (D L !! rows) as [row|] eqn:Er; [|done]. simpl.
  rewrite last_lookup, (Hrow _ _ Er).
  by replace (Init.Nat.pred (cols + 1)) with cols by lia.
Qed.

(** The constructor returns, and what it returns. *)
Lemma init_spec s t c fuel :
  length s + length t <= fuel ->
  exists L, __init__ fuel s t c = Ok L /\
    source L = s /\ target L = t /\ costs L = c /\
    __edit_distance s t c = Ok (D L) /\
    shaped (length s + 1) (length t + 1) (D L) /\
    follows_recurrence s t c (D L) /\
    distance L = Ok (lev c (rev s) (rev t)) /\
    script_cost c (op_type <$> edit_ops L) = lev c (rev s) (rev t) /\
    Forall (in_range (length s) (length t)) (edit_ops L).
Proof.
  intros Hfuel. unfold __init__.
  destruct (edit_distance_spec s t c) as (D0 & HD0 & Hsh & Hcells).
  rewrite HD0. simpl.
  destruct (backtrace_loop_spec s t c D0 Hcells fuel (length s) (length t)
              []) as (es & Hloop & Hcost & Hrange); [lia..|].
  unfold __backtrace. rewrite Hloop. simpl.
  eexists. split; [done|]. simpl. do 5 (split; [done|]).
  split; [done|]. split; [|split].
  - rewrite (distance_getitem2 _ (length s) (length t)) by done. simpl.
    rewrite Hcells by done. by rewrite cell_value_last.
  - unfold edit_ops. simpl.
    by rewrite fmap_rev, script_cost_rev, Hcost, cell_value_last.
  - unfold edit_ops. simpl. by apply Forall_rev.
Qed.

End Backtrace.

(** * The claims *)

Section Claims.
Context {A : Type} `{EqDecision A}.
Implicit Types (s t : list A) (c : cost_model) (D : matrix).

(** C1. For non-negative costs, every cell [D[i][j]] of the constructed
    matrix holds the least cost of a script of insertions, deletions,
    substitutions and free matches of equal symbols that turns the first
    [i] symbols of the source into the first [j] symbols of the target; and
    [distance()] returns [D[m][n]], the least cost of turning the source
    into the target. *)
Theorem C1_cells_hold_minimal_costs s t c fuel :
  nonneg_costs c -> length s + length t <= fuel ->
  exists L, __init__ fuel s t c = Ok L /\
    (forall i j, i <= length s -> j <= length t ->
       exists v, getitem2 (D L) i j = Ok v /\
                 min_cost c (take i s) (take j t) v) /\
    exists d, distance L = Ok d /\
              getitem2 (D L) (length s) (length t) = Ok d /\
              min_cost c s t d.
Proof.
  intros Hc Hfuel.
  destruct (init_spec s t c fuel Hfuel)
    as (L & HL & _ & _ & _ & _ & _ & Hcells & Hdist & _).
  exists L. split; [done|]. split.
  - intros i j Hi Hj. exists (cell_value c s t i j).
    split; [by apply Hcells|]. by apply lev_min_cost.
  - exists (lev c (rev s) (rev t)). split; [done|]. split.
    + rewrite Hcells by done. by rewrite cell_value_last.
    + by apply lev_min_cost.
Qed.

(** C3. The costs of the records of [edit_ops()] - nothing for a Match,
    the insertion, deletion or substitution cost for the others - add up
    to [distance()]. *)
Theorem C3_script_cost_is_distance s t c fuel :
  nonneg_costs c -> length s + length t <= fuel ->
  exists L d, __init__ fuel s t c = Ok L /\
    distance L = Ok d /\
    script_cost c (op_type <$> edit_ops L) = d.
Proof.
  intros _ Hfuel.
  destruct (init_spec s t c fuel Hfuel)
    as (L & HL & _ & _ & _ & _ & _ & _ & Hdist & Hcost & _).
  by exists L, (lev c (rev s) (rev t)).
Qed.

(** C5. Over the matrix the constructor builds, every step of the
    backtrace away from the origin finds a test that holds and moves to a
    cell with a smaller [i + j]; so the loop ends within [m + n]
    iterations and the constructor returns. *)
Theorem C5_backtrace_terminates s t c :
  nonneg_costs c ->
  exists D0, __edit_distance s t c = Ok D0 /\
    (forall i j edits, i <= length s -> j <= length t -> ~ (i = 0 /\ j = 0) ->
       exists cur ty i' j' edits',
         getitem2 D0 i j = Ok cur /\
         guard D0 c i j cur ty = Ok true /\
         backtrace_step D0 c (i, j, edits) = Ok (i', j', edits') /\
         i' <= i /\ j' <= j /\ i' + j' < i + j) /\
    (forall fuel, length s + length t <= fuel ->
       (exists es, __backtrace fuel s t c D0 = Ok es) /\
       (exists L, __init__ fuel s t c = Ok L)).
Proof.
  intros _.
  destruct (edit_distance_spec s t c) as (D0 & HD0 & Hsh & Hcells).
  exists D0. split; [done|]. split.
  - intros i j edits Hi Hj Hij.
    destruct (backtrace_step_spec s t c D0 i j edits Hcells Hi Hj Hij)
      as (ty & i' & j' & Hstep & Hguard & Hmove & _).
    exists (cell_value c s t i j), ty, i', j', (edits ++ [Edit ty i' j']).
    split; [by apply Hcells|]. do 2 (split; [done|]).
    destruct ty; simpl in Hmove; lia.
  - intros fuel Hfuel. split.
    + destruct (backtrace_loop_spec s t c D0 Hcells fuel (length s)
                  (length t) []) as (es & Hloop & _); [lia..|].
      exists (rev es). unfold __backtrace. by rewrite Hloop.
    + destruct (init_spec s t c fuel Hfuel) as (L & HL & _). by exists L.
Qed.

(** C7, as the code has it. Row 0 holds the prefix sums of the insertion
    cost, [D[0][j] = j * insertionCost], and column 0 those of the deletion
    cost, [D[i][0] = i * deletionCost]. *)
Theorem C7_first_row_and_column s t c :
  nonneg_costs c ->
  exists D0, __edit_distance s t c = Ok D0 /\
    (forall j, j <= length t ->
       getitem2 D0 0 j = Ok (Z.of_nat j * cost_ins c)%Z) /\
    (forall i, i <= length s ->
       getitem2 D0 i 0 = Ok (Z.of_nat i * cost_del c)%Z).
Proof.
  intros _.
  destruct (edit_distance_spec s t c) as (D0 & HD0 & Hsh & Hcells).
  exists D0. split; [done|]. split.
  - intros j Hj. rewrite Hcells by lia. by rewrite cell_value_0_l.
  - intros i Hi. rewrite Hcells by lia. by rewrite cell_value_0_r.
Qed.

(** C10. Every record of [edit_ops()] has its indices in range: a Match or
    a Substitution has [i < m] and [j < n], a Deletion [i < m] and
    [j <= n], an Insertion [i <= m] and [j < n] (indices are natural
    numbers, so they are never negative). *)
Theorem C10_indices_in_range s t c fuel :
  nonneg_costs c -> length s + length t <= fuel ->
  exists L, __init__ fuel s t c = Ok L /\
    Forall (in_range (length s) (length t)) (edit_ops L).
Proof.
  intros _ Hfuel.
  destruct (init_spec s t c fuel Hfuel)
    as (L & HL & _ & _ & _ & _ & _ & _ & _ & _ & Hrange).
  by exists L.
Qed.

End Claims.

(** ** The backtrace on any matrix *)

(** The subtraction [i - 1] is only reached behind [i != 0]: a step never
    takes an index below zero. *)
Lemma backtrace_step_no_underflow D c i j edits i' j' edits' :
  backtrace_step D c (i, j, edits) = Ok (i', j', edits') ->
  (i' = i \/ i = S i') /\ (j' = j \/ j = S j').
Proof.
  destruct c as [[ci cd] cs]. unfold backtrace_step, guard, and_then.
  destruct (getitem2 D i j) as [cur| |]; simpl; [|done..].
  destruct i as [|i], j as [|j]; simpl; rewrite ?Nat.sub_0_r;
    repeat match goal with
    | |- context [getitem2 D ?a ?b] =>
        destruct (getitem2 D a b) as [?| |]; simpl; [|done..]
    | |- context [(?x =? ?y)%Z] => destruct (x =? y)%Z; simpl
    end;
    intros [= <- <- <-]; lia.
Qed.

(** C4. One step of the backtrace tries Match, Substitution, Deletion and
    Insertion in this order and the first test that holds decides the
    record and the move.  The Match test is [i != 0], [j != 0] and the
    cost equality [D[i][j] == D[i-1][j-1]]; no symbol is compared.  So
    when the Match test holds, Match is what is reported, whatever the
    other three tests say. *)
Theorem C4_tie_break_order (D : matrix) (c : cost_model) (i j : nat)
    (edits : list edit_op) :
  backtrace_step D c (i, j, edits) = step_by_order D c (i, j, edits) /\
  (forall cur, guard D c i j cur Match = Ok true <->
     i <> 0 /\ j <> 0 /\ getitem2 D (i - 1) (j - 1) = Ok cur) /\
  (forall cur, getitem2 D i j = Ok cur ->
     guard D c i j cur Match = Ok true ->
     backtrace_step D c (i, j, edits) =
       Ok (i - 1, j - 1, edits ++ [Edit Match (i - 1) (j - 1)])).
Proof.
  split; [|split].
  - unfold backtrace_step, step_by_order.
    destruct (getitem2 D i j) as [cur| |]; [|done..].
    cbn [mbind outcome_bind tie_break_order first_holding].
    destruct (guard D c i j cur Match) as [[|]| |]; [done| |done..].
    cbn [mbind outcome_bind].
    destruct (guard D c i j cur Substitution) as [[|]| |]; [done| |done..].
    cbn [mbind outcome_bind].
    destruct (guard D c i j cur Deletion) as [[|]| |]; [done| |done..].
    cbn [mbind outcome_bind].
    by destruct (guard D c i j cur Insertion) as [[|]| |].
  - intros cur. destruct c as [[ci cd] cs]. unfold guard, and_then.
    destruct i as [|i], j as [|j]; simpl; try (split; [done|lia]).
    rewrite !Nat.sub_0_r.
    destruct (getitem2 D i j) as [d| |]; simpl.
    + destruct (Z.eqb_spec cur d) as [->|Hne].
      * by split.
      * split; [done|]. intros (_ & _ & [= ->]). done.
    + split; [done|]. by intros (_ & _ & ?).
    + split; [done|]. by intros (_ & _ & ?).
  - intros cur Hcur Hm. unfold backtrace_step. rewrite Hcur. simpl.
    by rewrite Hm.
Qed.

(** A step that changes nothing away from the origin is repeated without
    end. *)
Lemma backtrace_loop_stuck (D : matrix) (c : cost_model) (i j : nat)
    (edits : list edit_op) :
  ~ (i = 0 /\ j = 0) ->
  backtrace_step D c (i, j, edits) = Ok (i, j, edits) ->
  forall fuel, backtrace_loop fuel D c (i, j, edits) = Running.
Proof.
  intros Hij Hstep fuel. induction fuel as [|fuel IH].
  - by apply backtrace_loop_0.
  - rewrite backtrace_loop_S, Hstep by done. exact IH.
Qed.

(** C6, as the code has it.  When no test holds at a cell other than the
    origin, the step raises nothing and changes nothing: [i], [j] and the
    list of records stay as they are, and the loop repeats that step
    without end. *)
Theorem C6_no_test_no_progress (D : matrix) (c : cost_model) (i j : nat)
    (edits : list edit_op) (cur : Z) :
  ~ (i = 0 /\ j = 0) ->
  getitem2 D i j = Ok cur ->
  (forall ty, guard D c i j cur ty = Ok false) ->
  backtrace_step D c (i, j, edits) = Ok (i, j, edits) /\
  forall fuel, backtrace_loop fuel D c (i, j, edits) = Running.
Proof.
  intros Hij Hcur Hnone.
  assert (backtrace_step D c (i, j, edits) = Ok (i, j, edits)) as Hstep.
  { unfold backtrace_step. rewrite Hcur. simpl. by rewrite !Hnone. }
  split; [done|]. by apply backtrace_loop_stuck.
Qed.

(** ** Distances compared *)

Section Distances.
Context {A : Type} `{EqDecision A}.
Implicit Types (s t u : list A) (c : cost_model).

Lemma distance_of_lev s t c :
  distance_of s t c = Ok (lev c (rev s) (rev t)).
Proof.
  unfold distance_of.
  destruct (init_spec s t c (length s + length t))
    as (L & -> & _ & _ & _ & _ & _ & _ & Hdist & _); [lia|].
  exact Hdist.
Qed.

(** Any larger budget gives the same distance. *)
Lemma distance_of_fuel s t c fuel :
  length s + length t <= fuel ->
  (L ← __init__ fuel s t c; distance L) = distance_of s t c.
Proof.
  intros Hfuel. rewrite distance_of_lev.
  destruct (init_spec s t c fuel Hfuel)
    as (L & -> & _ & _ & _ & _ & _ & _ & Hdist & _).
  exact Hdist.
Qed.

(** C8, as the code has it.  For a given cost triple, [distance(A, B)]
    equals [distance(B, A)] for all sequences [A] and [B] exactly when the
    insertion cost equals the deletion cost.  ([a] is any symbol: over an
    empty alphabet there is nothing to tell the two costs apart.) *)
Theorem C8_symmetry_iff_equal_costs (a : A) c :
  nonneg_costs c ->
  (forall s t, distance_of s t c = distance_of t s c) <->
  cost_ins c = cost_del c.
Proof.
  intros _. split.
  - intros Hsym. specialize (Hsym [a] []).
    rewrite !distance_of_lev in Hsym. simpl in Hsym.
    injection Hsym as Hsym. lia.
  - intros Heq s t. rewrite !distance_of_lev. f_equal. by apply lev_sym.
Qed.

(** C9. With the costs [(1, 1, 1)] the distance obeys the triangle
    inequality: [distance(A, C) <= distance(A, B) + distance(B, C)]. *)
Theorem C9_triangle_inequality s t u :
  exists dst dtu dsu,
    distance_of s t default_costs = Ok dst /\
    distance_of t u default_costs = Ok dtu /\
    distance_of s u default_costs = Ok dsu /\
    (dsu <= dst + dtu)%Z.
Proof.
  pose (c := default_costs).
  assert (nonneg_costs c) as Hc by (repeat split; cbv; discriminate).
  fold c.
  exists (lev c (rev s) (rev t)), (lev c (rev t) (rev u)),
    (lev c (rev s) (rev u)).
  do 3 (split; [apply distance_of_lev|]).
  destruct (aligned_trans c (rev s) (rev t) _ Hc (lev_upper c _ _)
              (rev u) _ (lev_upper c _ _)) as (k & Hk & Hle).
  pose proof (lev_lower c _ _ k Hc Hk). lia.
Qed.

End Distances.

(** ** Concrete runs *)

(** The example of the class docstring: "hello" to "world" with the costs
    (2, 2, 1). *)
Example docstring_example :
  __init__ 10 (str "hello") (str "world") (2, 2, 1)%Z =
  Ok {| source := str "hello"; target := str "world"; costs := (2, 2, 1)%Z;
        D := [[0; 2; 4; 6; 8; 10]; [2; 1; 3; 5; 7; 9]; [4; 3; 2; 4; 6; 8];
              [6; 5; 4; 3; 4; 6]; [8; 7; 6; 5; 3; 5];
              [10; 9; 7; 7; 5; 4]]%Z;
        edits := [Edit Substitution 0 0; Edit Substitution 1 1;
                  Edit Substitution 2 2; Edit Match 3 3;
                  Edit Substitution 4 4] |}.
Proof. vm_compute. reflexivity. Qed.

Example kitten_sitting :
  distance_of (str "kitten") (str "sitting") default_costs = Ok 3%Z.
Proof. vm_compute. reflexivity. Qed.

Example empty_source :
  __init__ 3 (str "") (str "abc") default_costs =
  Ok {| source := str ""; target := str "abc"; costs := default_costs;
        D := [[0; 1; 2; 3]]%Z;
        edits := [Edit Insertion 0 0; Edit Insertion 0 1;
                  Edit Insertion 0 2] |}.
Proof. vm_compute. reflexivity. Qed.

Example identical_sequences :
  (L ← __init__ 6 (str "abc") (str "abc") (3, 5, 7)%Z;
   d ← distance L; Ok (d, edit_ops L)) =
  Ok (0%Z, [Edit Match 0 0; Edit Match 1 1; Edit Match 2 2]).
Proof. vm_compute. reflexivity. Qed.

(** With a free substitution the cell of two different symbols passes the
    Match test, and Match is what is reported. *)
Example free_substitution_reports_match :
  (L ← __init__ 2 (str "a") (str "b") (1, 1, 0)%Z; Ok (edit_ops L)) =
  Ok [Edit Match 0 0].
Proof. vm_compute. reflexivity. Qed.

(** C2 fails on the code: for "ab" and "abc" with the costs (1, 1, 1) the
    backtrace reports Insertion(0,0), Match(0,1), Match(1,2).  The two
    Match records pair different symbols ('a' with 'b', 'b' with 'c'),
    because the Match test compares costs and not symbols; replayed, the
    script writes "aab" and not "abc". *)
Theorem C2_replay_misses_target :
  exists L, __init__ 5 (str "ab") (str "abc") default_costs = Ok L /\
    edit_ops L = [Edit Insertion 0 0; Edit Match 0 1; Edit Match 1 2] /\
    str "ab" !! 0 <> str "abc" !! 1 /\
    replay (op_type <$> edit_ops L) (str "ab") (str "abc") =
      Some (str "aab") /\
    ~ transforms (op_type <$> edit_ops L) (str "ab") (str "abc").
Proof.
  eexists. split; [vm_compute; reflexivity|].
  split; [reflexivity|]. split; [by vm_compute|].
  split; [reflexivity|]. unfold transforms. by vm_compute.
Qed.

(** C6 as stated fails: on [corrupt_matrix] no test holds at cell (0, 1),
    and the backtrace neither raises an error nor returns, whatever the
    number of iterations it is given. *)
Lemma C6_counterexample :
  getitem2 corrupt_matrix 0 1 = Ok 5%Z /\
  (forall ty, guard corrupt_matrix default_costs 0 1 5 ty = Ok false) /\
  (forall fuel,
     __backtrace fuel (str "") (str "a") default_costs corrupt_matrix =
     Running).
Proof.
  split; [reflexivity|]. split; [by intros []|].
  intros fuel. unfold __backtrace. simpl length.
  rewrite (backtrace_loop_stuck corrupt_matrix default_costs 0 1 []);
    [reflexivity|lia|reflexivity].
Qed.

(** C7 as stated fails: for "a" and "b" with the costs (1, 2, 1) the cell
    [D[0][1]] is the insertion cost 1, not the deletion cost 2, and
    [D[1][0]] is the deletion cost 2, not the insertion cost 1. *)
Lemma C7_counterexample :
  exists D0, __edit_distance (str "a") (str "b") (1, 2, 1)%Z = Ok D0 /\
    getitem2 D0 0 1 = Ok 1%Z /\
    getitem2 D0 0 1 <> Ok (1 * cost_del (1, 2, 1))%Z /\
    getitem2 D0 1 0 = Ok 2%Z /\
    getitem2 D0 1 0 <> Ok (1 * cost_ins (1, 2, 1))%Z.
Proof.
  eexists. split; [vm_compute; reflexivity|]. by vm_compute.
Qed.

(** C8 as stated fails: "a" and "b" are at distance 1 in both directions
    with the costs (1, 2, 1), whose insertion and deletion costs differ. *)
Lemma C8_counterexample :
  nonneg_costs (1, 2, 1)%Z /\
  distance_of (str "a") (str "b") (1, 2, 1)%Z = Ok 1%Z /\
  distance_of (str "b") (str "a") (1, 2, 1)%Z = Ok 1%Z /\
  cost_ins (1, 2, 1)%Z <> cost_del (1, 2, 1)%Z.
Proof. by vm_compute. Qed.

(** ** The theorems at concrete inputs *)

Lemma nonneg_default_costs : nonneg_costs default_costs.
Proof. repeat split; cbv; discriminate. Defined.

Lemma C1_witness :
  nonneg_costs default_costs /\
  length (str "ab") + length (str "abc") <= 5 /\
  exists L, __init__ 5 (str "ab") (str "abc") default_costs = Ok L /\
    (forall i j, i <= length (str "ab") -> j <= length (str "abc") ->
       exists v, getitem2 (D L) i j = Ok v /\
                 min_cost default_costs (take i (str "ab"))
                   (take j (str "abc")) v) /\
    exists d, distance L = Ok d /\
              getitem2 (D L) (length (str "ab")) (length (str "abc")) = Ok d /\
              min_cost default_costs (str "ab") (str "abc") d.
Proof.
  split; [exact nonneg_default_costs|]. split; [simpl; lia|].
  apply (C1_cells_hold_minimal_costs (str "ab") (str "abc") default_costs 5).
  - exact nonneg_default_costs.
  - simpl; lia.
Defined.

Lemma C3_witness :
  nonneg_costs (2, 2, 1)%Z /\
  length (str "hello") + length (str "world") <= 10 /\
  exists L d, __init__ 10 (str "hello") (str "world") (2, 2, 1)%Z = Ok L /\
    distance L = Ok d /\
    script_cost (2, 2, 1)%Z (op_type <$> edit_ops L) = d.
Proof.
  assert (nonneg_costs (2, 2, 1)%Z) as Hc by (repeat split; cbv; discriminate).
  split; [exact Hc|]. split; [simpl; lia|].
  apply (C3_script_cost_is_distance (str "hello") (str "world")
           (2, 2, 1)%Z 10 Hc).
  simpl; lia.
Defined.

Lemma C5_witness :
  nonneg_costs default_costs /\
  exists D0, __edit_distance (str "ab") (str "abc") default_costs = Ok D0 /\
    (forall i j edits,
       i <= length (str "ab") -> j <= length (str "abc") ->
       ~ (i = 0 /\ j = 0) ->
       exists cur ty i' j' edits',
         getitem2 D0 i j = Ok cur /\
         guard D0 default_costs i j cur ty = Ok true /\
         backtrace_step D0 default_costs (i, j, edits) =
           Ok (i', j', edits') /\
         i' <= i /\ j' <= j /\ i' + j' < i + j) /\
    (forall fuel, length (str "ab") + length (str "abc") <= fuel ->
       (exists es,
          __backtrace fuel (str "ab") (str "abc") default_costs D0 = Ok es) /\
       (exists L, __init__ fuel (str "ab") (str "abc") default_costs = Ok L)).
Proof.
  split; [exact nonneg_default_costs|].
  exact (C5_backtrace_terminates (str "ab") (str "abc") default_costs
           nonneg_default_costs).
Defined.

Lemma C6_witness :
  ~ (0 = 0 /\ 1 = 0) /\
  getitem2 corrupt_matrix 0 1 = Ok 5%Z /\
  (forall ty, guard corrupt_matrix default_costs 0 1 5 ty = Ok false) /\
  backtrace_step corrupt_matrix default_costs (0, 1, []) = Ok (0, 1, []) /\
  forall fuel,
    backtrace_loop fuel corrupt_matrix default_costs (0, 1, []) = Running.
Proof.
  assert (~ (0 = 0 /\ 1 = 0)) as Hij by (intros [_ Hj]; discriminate Hj).
  assert (forall ty, guard corrupt_matrix default_costs 0 1 5 ty = Ok false)
    as Hnone by (intros []; reflexivity).
  split; [exact Hij|]. split; [reflexivity|]. split; [exact Hnone|].
  exact (C6_no_test_no_progress corrupt_matrix default_costs 0 1 [] 5%Z
           Hij eq_refl Hnone).
Defined.

Lemma C7_witness :
  nonneg_costs (1, 2, 1)%Z /\
  exists D0, __edit_distance (str "a") (str "b") (1, 2, 1)%Z = Ok D0 /\
    (forall j, j <= length (str "b") ->
       getitem2 D0 0 j = Ok (Z.of_nat j * cost_ins (1, 2, 1))%Z) /\
    (forall i, i <= length (str "a") ->
       getitem2 D0 i 0 = Ok (Z.of_nat i * cost_del (1, 2, 1))%Z).
Proof.
  assert (nonneg_costs (1, 2, 1)%Z) as Hc by (repeat split; cbv; discriminate).
  split; [exact Hc|].
  exact (C7_first_row_and_column (str "a") (str "b") (1, 2, 1)%Z Hc).
Defined.

Lemma C8_witness :
  nonneg_costs default_costs /\
  ((forall s t : list ascii,
      distance_of s t default_costs = distance_of t s default_costs) <->
   cost_ins default_costs = cost_del default_costs).
Proof.
  split; [exact nonneg_default_costs|].
  exact (C8_symmetry_iff_equal_costs "a"%char default_costs
           nonneg_default_costs).
Defined.

Lemma C10_witness :
  nonneg_costs default_costs /\
  length (str "ab") + length (str "abc") <= 5 /\
  exists L, __init__ 5 (str "ab") (str "abc") default_costs = Ok L /\
    Forall (in_range (length (str "ab")) (length (str "abc"))) (edit_ops L).
Proof.
  split; [exact nonneg_default_costs|]. split; [simpl; lia|].
  apply (C10_indices_in_range (str "ab") (str "abc") default_costs 5).
  - exact nonneg_default_costs.
  - simpl; lia.
Defined.


(** * Further properties of the code *)

(** ** More on scripts *)

Section ScriptBounds.
Context {A : Type} `{EqDecision A}.
Implicit Types (s t : list A) (c : cost_model) (k : Z).

Lemma aligned_nonneg c s t k :
  nonneg_costs c -> aligned c s t k -> (0 <= k)%Z.
Proof. intros (Hi & Hd & Hs). induction 1; lia. Qed.

(** A script needs at least as many insertions as the target is longer,
    and at least as many deletions as the source is longer. *)
Lemma aligned_length_gap c s t k :
  nonneg_costs c -> aligned c s t k ->
  ((Z.of_nat (length t) - Z.of_nat (length s)) * cost_ins c <= k)%Z /\
  ((Z.of_nat (length s) - Z.of_nat (length t)) * cost_del c <= k)%Z.
Proof.
  intros (Hi & Hd & Hs). induction 1 as [|a s t k _ IH|a b s t k _ IH
    |a s t k _ IH|b s t k _ IH]; simpl length;
    rewrite ?Nat2Z.inj_succ; lia.
Qed.

(** Deleting the whole source and inserting the whole target. *)
Lemma aligned_delete_insert c s t :
  aligned c s t (Z.of_nat (length s) * cost_del c +
                 Z.of_nat (length t) * cost_ins c).
Proof.
  induction s as [|a s IHs].
  - induction t as [|b t IHt]; [apply aligned_nil|].
    eapply aligned_cost_eq; [apply (aligned_insert c b), IHt|].
    simpl length. lia.
  - eapply aligned_cost_eq; [apply (aligned_delete c a), IHs|].
    simpl length. lia.
Qed.

(** With unit costs, substituting along the diagonal. *)
Lemma aligned_diagonal s : forall t,
  exists k, aligned default_costs s t k /\
    (k <= Z.max (Z.of_nat (length s)) (Z.of_nat (length t)))%Z.
Proof.
  induction s as [|a s IHs]; intros t.
  - eexists. split; [apply aligned_delete_insert|].
    unfold cost_ins, cost_del. simpl. lia.
  - destruct t as [|b t].
    + eexists. split; [apply aligned_delete_insert|].
      unfold cost_ins, cost_del. simpl fst. simpl snd. simpl length. lia.
    + destruct (IHs t) as (k & Hk & Hle).
      exists (k + cost_sub default_costs)%Z.
      split; [by apply aligned_subst|].
      unfold cost_sub. simpl snd. simpl length. lia.
Qed.

(** With positive costs only a script of matches is free. *)
Lemma aligned_zero c s t k :
  (0 < cost_ins c)%Z -> (0 < cost_del c)%Z -> (0 < cost_sub c)%Z ->
  aligned c s t k -> (0 <= k)%Z /\ (k = 0%Z -> s = t).
Proof.
  intros Hi Hd Hs.
  induction 1 as [|a s t k _ [IH0 IH]|a b s t k _ [IH0 IH]
                 |a s t k _ [IH0 IH]|b s t k _ [IH0 IH]];
    (split; [lia|]); intros Hk; try lia.
  - done.
  - by rewrite IH.
Qed.

Lemma lev_refl c s : lev c s s = 0%Z.
Proof.
  induction s as [|a s IH]; [done|].
  by rewrite lev_cons_cons, bool_decide_eq_true_2.
Qed.

End ScriptBounds.

(** ** The trace of the backtrace *)

Lemma backtrace_step_match (D : matrix) (c : cost_model) (i j : nat)
    (edits : list edit_op) (cur : Z) :
  getitem2 D i j = Ok cur ->
  guard D c i j cur Match = Ok true ->
  backtrace_step D c (i, j, edits) =
    Ok (i - 1, j - 1, edits ++ [Edit Match (i - 1) (j - 1)]).
Proof.
  intros Hcur Hm. unfold backtrace_step. rewrite Hcur. simpl. by rewrite Hm.
Qed.

(** A loop that returns under one budget returns the same under any larger
    one. *)
Lemma backtrace_loop_more_fuel (D : matrix) (c : cost_model) fuel :
  forall fuel' st st', fuel <= fuel' ->
    backtrace_loop fuel D c st = Ok st' ->
    backtrace_loop fuel' D c st = Ok st'.
Proof.
  induction fuel as [|fuel IH]; intros fuel' [[i j] edits] st' Hle Hrun.
  - destruct (decide (i = 0 /\ j = 0)) as [[-> ->]|Hij].
    + by rewrite backtrace_loop_done in *.
    + by rewrite backtrace_loop_0 in Hrun.
  - destruct (decide (i = 0 /\ j = 0)) as [[-> ->]|Hij].
    + by rewrite backtrace_loop_done in *.
    + destruct fuel' as [|fuel']; [lia|].
      rewrite backtrace_loop_S in * by done.
      destruct (backtrace_step D c (i, j, edits)) as [st1| |]; [|done..].
      simpl in *. apply IH; [lia|done].
Qed.

Section TraceFacts.
Context {A : Type} `{EqDecision A}.
Implicit Types (s t : list A) (c : cost_model) (D : matrix).

Lemma backtrace_step_fact s t c D i j edits :
  follows_recurrence s t c D ->
  i <= length s -> j <= length t -> ~ (i = 0 /\ j = 0) ->
  exists e, backtrace_step D c (i, j, edits) =
              Ok (op_i e, op_j e, edits ++ [e]) /\
            step_fact s t i j e.
Proof.
  intros HD Hi Hj Hij.
  destruct (backtrace_step_spec s t c D i j edits HD Hi Hj Hij)
    as (ty & i' & j' & Hstep & _ & Hmove & _).
  exists (Edit ty i' j'). split; [done|]. split; [done|]. simpl.
  intros i0 j0 a -> -> Ha Hb.
  assert (guard D c (S i0) (S j0) (cell_value c s t (S i0) (S j0)) Match =
          Ok true) as Hm.
  { rewrite (cell_value_S_S c s t i0 j0 a a Ha Hb).
    rewrite bool_decide_eq_true_2 by done.
    destruct c as [[ci cd] cs]. unfold guard. simpl.
    rewrite !Nat.sub_0_r, (HD i0 j0) by lia. simpl.
    by rewrite Z.eqb_refl. }
  rewrite (backtrace_step_match D c (S i0) (S j0) edits _ (HD _ _ Hi Hj) Hm)
    in Hstep.
  injection Hstep as _ _ Hedits. apply app_inv_head in Hedits. congruence.
Qed.

Lemma backtrace_loop_walk s t c D :
  follows_recurrence s t c D ->
  forall fuel i j edits,
    i <= length s -> j <= length t -> i + j <= fuel ->
    exists es,
      backtrace_loop fuel D c (i, j, edits) = Ok (0, 0, edits ++ es) /\
      walk s t i j es.
Proof.
  intros HD fuel.
  induction fuel as [|fuel IH]; intros i j edits Hi Hj Hfuel.
  - assert (i = 0) as -> by lia. assert (j = 0) as -> by lia.
    exists []. rewrite backtrace_loop_done, app_nil_r. done.
  - destruct (decide (i = 0 /\ j = 0)) as [[-> ->]|Hij].
    { exists []. rewrite backtrace_loop_done, app_nil_r. done. }
    destruct (backtrace_step_fact s t c D i j edits HD Hi Hj Hij)
      as (e & Hstep & Hfact).
    assert (op_i e <= i /\ op_j e <= j /\ op_i e + op_j e < i + j)
      as (Hi' & Hj' & Hlt).
    { destruct Hfact as [Hmove _]. destruct (op_type e); simpl in Hmove; lia. }
    destruct (IH (op_i e) (op_j e) (edits ++ [e])) as (es & He & Hw);
      [lia..|].
    exists (e :: es). split; [|done].
    rewrite backtrace_loop_S, Hstep by done. simpl.
    by rewrite He, <- app_assoc.
Qed.

(** The constructor's edit script is the reverse of a walk from [(m, n)]. *)
Lemma init_walk s t c fuel :
  length s + length t <= fuel ->
  exists L es, __init__ fuel s t c = Ok L /\
    edit_ops L = rev es /\ walk s t (length s) (length t) es.
Proof.
  intros Hfuel. unfold __init__.
  destruct (edit_distance_spec s t c) as (D0 & -> & Hsh & Hcells). simpl.
  destruct (backtrace_loop_walk s t c D0 Hcells fuel (length s) (length t)
              []) as (es & Hloop & Hwalk); [lia..|].
  unfold __backtrace. rewrite Hloop. simpl. by eexists _, es.
Qed.

Lemma walk_origin s t es : walk s t 0 0 es -> es = [].
Proof.
  destruct es as [|e es]; [done|]. intros [[Hmove _] _].
  destruct (op_type e); simpl in Hmove; lia.
Qed.

Lemma walk_length s t es : forall i j,
  walk s t i j es -> i `max` j <= length es <= i + j.
Proof.
  induction es as [|e es IH]; intros i j; simpl.
  - lia.
  - intros [[Hmove _] Hw]. specialize (IH _ _ Hw).
    destruct (op_type e); simpl in Hmove; lia.
Qed.

Lemma path_end_snoc ops e : forall i j i' j',
  path_end i j ops = Some (i', j') ->
  op_i e = i' -> op_j e = j' ->
  path_end i j (ops ++ [e]) = Some (advance (op_type e) i' j').
Proof.
  induction ops as [|e0 ops IH]; intros i j i' j' Hp Hi Hj; simpl in *.
  - injection Hp as <- <-. rewrite decide_True by done.
    by destruct (advance (op_type e) i j).
  - case_decide; [|done].
    destruct (advance (op_type e0) i j) as [i1 j1]. by apply IH.
Qed.

Lemma walk_path s t es : forall i j,
  walk s t i j es -> path_end 0 0 (rev es) = Some (i, j).
Proof.
  induction es as [|e es IH]; intros i j; simpl.
  - by intros [-> ->].
  - intros [[Hmove _] Hw].
    rewrite (path_end_snoc _ e 0 0 _ _ (IH _ _ Hw)) by done.
    f_equal. destruct (op_type e); simpl in *; f_equal; lia.
Qed.

Lemma count_type_cons ty e ops :
  count_type ty (e :: ops) =
  (if decide (op_type e = ty) then 1 else 0) + count_type ty ops.
Proof. unfold count_type. rewrite filter_cons. by case_decide. Qed.

Lemma count_type_rev ty ops : count_type ty (rev ops) = count_type ty ops.
Proof.
  induction ops as [|e ops IH]; [done|]. simpl rev.
  rewrite count_type_cons. unfold count_type in *.
  rewrite filter_app, length_app, IH, filter_cons, filter_nil.
  case_decide; simpl; lia.
Qed.

(** Matches, substitutions and deletions use up the source; matches,
    substitutions and insertions use up the target. *)
Lemma walk_counts s t es : forall i j,
  walk s t i j es ->
  count_type Match es + count_type Substitution es + count_type Deletion es
    = i /\
  count_type Match es + count_type Substitution es + count_type Insertion es
    = j.
Proof.
  induction es as [|e es IH]; intros i j; simpl.
  - by intros [-> ->].
  - intros [[Hmove _] Hw]. specialize (IH _ _ Hw).
    rewrite !count_type_cons.
    destruct (op_type e); simpl in Hmove;
      repeat case_decide; try done; lia.
Qed.

(** Replaying the reverse of a walk uses up both sequences up to the cell
    the walk starts from.  What it writes has the length of the target
    prefix, and it is that prefix when every Match pairs equal symbols. *)
Lemma walk_replay s t es : forall i j rest out,
  walk s t i j es -> i <= length s -> j <= length t ->
  replay rest (drop i s) (drop j t) = Some out ->
  exists w, replay ((op_type <$> rev es) ++ rest) s t = Some (w ++ out) /\
    length w = j /\
    ((forall e, e ∈ es -> op_type e = Match -> s !! op_i e = t !! op_j e) ->
     w = take j t).
Proof.
  induction es as [|e es IH]; intros i j rest out; simpl.
  - intros [-> ->] _ _ Hrest. exists []. by rewrite !drop_0 in Hrest.
  - intros [[Hmove _] Hw] Hi Hj Hrest.
    rewrite fmap_app, <- app_assoc. simpl.
    destruct e as [ty i' j']. simpl in *.
    destruct ty; simpl in Hmove; destruct Hmove as [-> ->].
    + destruct (lookup_lt_is_Some_2 s i') as [a Ha]; [lia|].
      destruct (lookup_lt_is_Some_2 t j') as [b Hb]; [lia|].
      destruct (IH i' j' (Match :: rest) (a :: out) Hw) as (w & Hr & Hl & Heq);
        [lia|lia| |].
      { rewrite (drop_S s a i' Ha), (drop_S t b j' Hb). simpl.
        by rewrite Hrest. }
      exists (w ++ [a]). rewrite <- app_assoc. split; [done|].
      split; [rewrite length_app; simpl; lia|].
      intros Hall. rewrite Heq.
      * rewrite (take_S_r t j' b Hb). do 2 f_equal.
        specialize (Hall (Edit Match i' j') ltac:(left) eq_refl).
        simpl in Hall. congruence.
      * intros e He. apply Hall. by right.
    + destruct (lookup_lt_is_Some_2 s i') as [a Ha]; [lia|].
      destruct (lookup_lt_is_Some_2 t j') as [b Hb]; [lia|].
      destruct (IH i' j' (Substitution :: rest) (b :: out) Hw)
        as (w & Hr & Hl & Heq); [lia|lia| |].
      { rewrite (drop_S s a i' Ha), (drop_S t b j' Hb). simpl.
        by rewrite Hrest. }
      exists (w ++ [b]). rewrite <- app_assoc. split; [done|].
      split; [rewrite length_app; simpl; lia|].
      intros Hall. rewrite Heq.
      * by rewrite (take_S_r t j' b Hb).
      * intros e He. apply Hall. by right.
    + destruct (lookup_lt_is_Some_2 s i') as [a Ha]; [lia|].
      destruct (IH i' j' (Deletion :: rest) out Hw) as (w & Hr & Hl & Heq);
        [lia|lia| |].
      { rewrite (drop_S s a i' Ha). simpl. done. }
      exists w. split; [done|]. split; [done|].
      intros Hall. apply Heq. intros e He. apply Hall. by right.
    + destruct (lookup_lt_is_Some_2 t j') as [b Hb]; [lia|].
      destruct (IH i' j' (Insertion :: rest) (b :: out) Hw)
        as (w & Hr & Hl & Heq); [lia|lia| |].
      { rewrite (drop_S t b j' Hb). simpl. by rewrite Hrest. }
      exists (w ++ [b]). rewrite <- app_assoc. split; [done|].
      split; [rewrite length_app; simpl; lia|].
      intros Hall. rewrite Heq.
      * by rewrite (take_S_r t j' b Hb).
      * intros e He. apply Hall. by right.
Qed.

(** Along the diagonal of a sequence with itself there are only matches. *)
Lemma walk_identical s es : forall k,
  k <= length s -> walk s s k k es ->
  rev es = (fun i => Edit Match i i) <$> seq 0 k.
Proof.
  induction es as [|e es IH]; intros k Hk; simpl.
  - by intros [-> _].
  - intros [[Hmove Heq] Hw]. destruct k as [|k].
    { destruct (op_type e); simpl in Hmove; lia. }
    destruct (lookup_lt_is_Some_2 s k) as [a Ha]; [lia|].
    destruct e as [ty i' j']. cbn [op_type op_i op_j] in *.
    rewrite (Heq k k a eq_refl eq_refl Ha Ha) in *. simpl in Hmove.
    destruct Hmove as [[= <-] [= <-]].
    rewrite (IH k) by (done || lia). by rewrite seq_S, fmap_app.
Qed.

(** Along row 0 there are only insertions ... *)
Lemma walk_row_0 s t es : forall j,
  walk s t 0 j es -> rev es = (fun k => Edit Insertion 0 k) <$> seq 0 j.
Proof.
  induction es as [|e es IH]; intros j; simpl.
  - by intros [_ ->].
  - intros [[Hmove _] Hw]. destruct e as [ty i' j'].
    cbn [op_type op_i op_j] in *.
    destruct ty; simpl in Hmove; try lia. destruct Hmove as [<- ->].
    rewrite (IH j') by done. by rewrite seq_S, fmap_app.
Qed.

(** ... and along column 0 only deletions. *)
Lemma walk_column_0 s t es : forall i,
  walk s t i 0 es -> rev es = (fun k => Edit Deletion k 0) <$> seq 0 i.
Proof.
  induction es as [|e es IH]; intros i; simpl.
  - by intros [-> _].
  - intros [[Hmove _] Hw]. destruct e as [ty i' j'].
    cbn [op_type op_i op_j] in *.
    destruct ty; simpl in Hmove; try lia. destruct Hmove as [-> <-].
    rewrite (IH i') by done. by rewrite seq_S, fmap_app.
Qed.

(** A record other than Match is only appended at a cell whose two
    symbols differ. *)
Lemma walk_differs s t es : forall i j,
  walk s t i j es -> i <= length s -> j <= length t ->
  forall e, e ∈ es ->
    match op_type e with
    | Match => True
    | Substitution => s !! op_i e <> t !! op_j e
    | Deletion => 0 < op_j e -> s !! op_i e <> t !! (op_j e - 1)
    | Insertion => 0 < op_i e -> s !! (op_i e - 1) <> t !! op_j e
    end.
Proof.
  induction es as [|e0 es IH]; intros i j; simpl; [by intros _ _ _ e ?%elem_of_nil|].
  intros [[Hmove Heq] Hw] Hi Hj e He.
  assert (op_i e0 <= i /\ op_j e0 <= j) as [Hi' Hj'].
  { destruct (op_type e0); simpl in Hmove; lia. }
  apply elem_of_cons in He as [->|He]; [|apply (IH _ _ Hw); [lia|lia|done]].
  destruct e0 as [ty i' j']. simpl in *.
  destruct ty; simpl in Hmove; [done|..].
  - destruct Hmove as [-> ->].
    destruct (lookup_lt_is_Some_2 s i') as [a Ha]; [lia|].
    intros Hab. rewrite Ha in Hab.
    by specialize (Heq i' j' a eq_refl eq_refl Ha (eq_sym Hab)).
  - destruct Hmove as [-> <-]. intros Hpos.
    destruct (lookup_lt_is_Some_2 s i') as [a Ha]; [lia|].
    intros Hab. rewrite Ha in Hab.
    assert (j = S (j - 1)) as Hjs by lia.
    by specialize (Heq i' (j - 1) a eq_refl Hjs Ha (eq_sym Hab)).
  - destruct Hmove as [<- ->]. intros Hpos.
    destruct (lookup_lt_is_Some_2 s (i - 1)) as [a Ha]; [lia|].
    intros Hab. rewrite Ha in Hab.
    assert (i = S (i - 1)) as His by lia.
    by specialize (Heq (i - 1) j' a His eq_refl Ha (eq_sym Hab)).
Qed.

End TraceFacts.

(** ** Presentation *)

Lemma for_items_print {X : Type} (f : X -> list ascii) (xs : list X) :
  forall out,
    for_items xs (fun x out => Ok (print (f x) [] out)) out =
    Ok (out ++ concat (f <$> xs)).
Proof.
  induction xs as [|x xs IH]; intros out; simpl.
  - by rewrite app_nil_r.
  - rewrite IH. unfold print. by rewrite !app_nil_r, <- app_assoc.
Qed.

Lemma foldl_print {X : Type} (f : X -> list ascii) (xs : list X) :
  forall out,
    foldl (fun out x => print (f x) [] out) out xs =
    out ++ concat (f <$> xs).
Proof.
  induction xs as [|x xs IH]; intros out; simpl.
  - by rewrite app_nil_r.
  - rewrite IH. unfold print. by rewrite !app_nil_r, <- app_assoc.
Qed.

(** The cells of one row, read and written from left to right. *)
Lemma print_row (g : Z -> list ascii) (D : matrix) i row out :
  D !! i = Some row ->
  for_each (range 0 (length row))
    (fun j out => v ← getitem2 D i j; Ok (print (g v) [] out)) out =
  Ok (out ++ concat (g <$> row)).
Proof.
  intros Hrow. unfold range. rewrite Nat.sub_0_r.
  destruct (for_each_seq_inv
    (fun k out' => out' = out ++ concat (g <$> take k row))
    (fun j out => v ← getitem2 D i j; Ok (print (g v) [] out))
    (length row) 0 out) as (out' & -> & ->).
  - by rewrite take_0, app_nil_r.
  - intros k out0 Hk ->.
    destruct (lookup_lt_is_Some_2 row k) as [v Hv]; [lia|].
    rewrite (proj2 (getitem2_Ok D i k v)) by eauto. simpl.
    eexists. split; [done|]. unfold print.
    by rewrite (take_S_r row k v Hv), fmap_app, concat_app, app_nil_r,
      <- app_assoc; simpl; rewrite app_nil_r.
  - rewrite Nat.add_0_l. by rewrite firstn_all.
Qed.

Lemma length_concat_uniform {X : Type} (n : nat) (xss : list (list X)) :
  Forall (fun xs => length xs = n) xss ->
  length (concat xss) = n * length xss.
Proof.
  induction 1 as [|xs xss Hxs _ IH]; simpl; [lia|].
  rewrite length_app, IH, Hxs. lia.
Qed.

Lemma length_rjust w x : length x <= w -> length (rjust w x) = w.
Proof.
  intros Hx. unfold rjust. rewrite length_app, length_replicate. lia.
Qed.

Lemma length_ljust w x : length x <= w -> length (ljust w x) = w.
Proof.
  intros Hx. unfold ljust. rewrite length_app, length_replicate. lia.
Qed.

(** Integers from -9 to 99 are written with at most two characters. *)
Lemma decimal_two_characters (v : Z) :
  (-9 <= v <= 99)%Z -> length (decimal v) <= 2.
Proof.
  intros Hv.
  assert (forallb (fun k => length (decimal (Z.of_nat k - 9)) <=? 2)
            (seq 0 109) = true) as Hall by (vm_compute; reflexivity).
  rewrite forallb_forall in Hall.
  specialize (Hall (Z.to_nat (v + 9))).
  rewrite Z2Nat.id in Hall by lia.
  replace (v + 9 - 9)%Z with v in Hall by lia.
  apply Nat.leb_le, Hall, in_seq. lia.
Qed.

(** On a matrix of the right shape [print_distance_matrix] raises nothing
    and appends the lines of the grid. *)
Lemma print_distance_matrix_spec (L : Levenshtein ascii) (out : stdout) :
  shaped (length (source L) + 1) (length (target L) + 1) (D L) ->
  print_distance_matrix L out =
  Ok (out ++ unlines (matrix_lines (source L) (target L) (D L))).
Proof.
  intros [Hlen Hrows]. unfold print_distance_matrix.
  rewrite for_items_print. cbn [mbind outcome_bind].
  set (label := fun ch : ascii => rjust 2 [ch] ++ str " ").
  set (cells := fun row : list Z =>
         concat ((fun v => rjust 2 (decimal v) ++ str " ") <$> row)).
  set (fc := str "-" ++ source L).
  set (base := print [] [newline] _).
  set (lines := zip_with (fun ch row => label ch ++ cells row) fc (D L)).
  assert (length fc = length (source L) + 1) as Hfc.
  { unfold fc. rewrite length_app. simpl. lia. }
  assert (length lines = length (source L) + 1) as Hlines.
  { unfold lines. rewrite length_zip_with. lia. }
  unfold range. rewrite Nat.sub_0_r.
  match goal with
  | |- for_each _ ?body _ = _ =>
      destruct (for_each_seq_inv
        (fun k out' => out' = base ++ unlines (take k lines)) body
        (length (source L) + 1) 0 base) as (out' & -> & ->)
  end; [by rewrite take_0; unfold unlines; simpl; rewrite app_nil_r| |].
  - intros k out0 Hk ->.
    destruct (lookup_lt_is_Some_2 fc k) as [ch Hch]; [lia|].
    destruct (lookup_lt_is_Some_2 (D L) k) as [row Hrow]; [lia|].
    rewrite (proj2 (getitem_Ok fc k ch) Hch). cbn [mbind outcome_bind].
    rewrite <- (Hrows k row Hrow).
    rewrite (print_row (fun v => rjust 2 (decimal v) ++ str " ") (D L) k row
               _ Hrow). cbn [mbind outcome_bind].
    eexists. split; [done|].
    assert (lines !! k = Some (label ch ++ cells row)) as Hline.
    { unfold lines. rewrite lookup_zip_with, Hch, Hrow. done. }
    rewrite (take_S_r lines k _ Hline). unfold unlines, print.
    rewrite fmap_app, concat_app. cbn [fmap list_fmap concat].
    by rewrite ?app_nil_r, ?app_nil_l, <- ?app_assoc.
  - f_equal. rewrite Nat.add_0_l, <- Hlines, firstn_all.
    unfold base, print, unlines, matrix_lines.
    cbn [fmap list_fmap concat].
    by rewrite ?app_nil_r, ?app_nil_l, <- ?app_assoc.
Qed.

Lemma length_matrix_lines (s t : list ascii) (D : matrix) :
  length D = length s + 1 ->
  length (matrix_lines s t D) = length s + 2.
Proof.
  intros HD. unfold matrix_lines. cbn [length].
  rewrite length_zip_with, length_app, HD.
  change (length (str "-")) with 1. lia.
Qed.

(** When every cell is written with at most two characters, every line of
    the grid has three characters per column. *)
Lemma matrix_lines_aligned (s t : list ascii) (D : matrix) :
  shaped (length s + 1) (length t + 1) D ->
  Forall (Forall (fun v => (-9 <= v <= 99)%Z)) D ->
  Forall (fun l => length l = 3 * (length t + 2)) (matrix_lines s t D).
Proof.
  intros [Hlen Hrows] Hcells. unfold matrix_lines. constructor.
  - rewrite (length_concat_uniform 3).
    + rewrite length_fmap, length_app. simpl. lia.
    + apply Forall_fmap, Forall_forall. by intros ch _.
  - apply Forall_forall. intros l Hl.
    apply list_elem_of_lookup in Hl as [k Hk].
    rewrite lookup_zip_with in Hk.
    destruct ((str "-" ++ s) !! k) as [ch|] eqn:Hch; [|done].
    destruct (D !! k) as [row|] eqn:Hrow; [|done].
    cbn [mbind option_bind] in Hk.
    apply (inj Some) in Hk. subst l. rewrite length_app.
    rewrite (length_concat_uniform 3).
    + rewrite length_fmap, (Hrows k row Hrow).
      change (length (rjust 2 [ch] ++ str " ")) with 3. lia.
    + apply Forall_fmap.
      assert (Forall (fun v => (-9 <= v <= 99)%Z) row) as Hrowc.
      { rewrite Forall_forall in Hcells. apply Hcells.
        apply list_elem_of_lookup. eauto. }
      eapply Forall_impl; [exact Hrowc|]. intros v Hv. simpl.
      rewrite length_app, length_rjust by by apply decimal_two_characters.
      done.
Qed.

Lemma length_edit_line (e : edit_op) :
  op_i e <= 99 -> op_j e <= 99 -> length (edit_line e) = 20.
Proof.
  intros Hi Hj. unfold edit_line.
  rewrite !length_app, length_ljust, !length_rjust.
  - done.
  - apply decimal_two_characters. lia.
  - apply decimal_two_characters. lia.
  - destruct (op_type e); simpl; lia.
Qed.

Lemma print_edit_ops_spec {A : Type} (L : Levenshtein A) (out : stdout) :
  print_edit_ops L out =
  out ++ edit_ops_heading ++ concat (edit_line <$> edit_ops L).
Proof.
  unfold print_edit_ops. rewrite foldl_print. unfold print, edit_ops.
  by rewrite <- !app_assoc.
Qed.

(** ** Bounds on the recurrence *)

Section MoreRecurrenceFacts.
Context {A : Type} `{EqDecision A}.
Implicit Types (s t : list A) (c : cost_model) (D : matrix).

Lemma lev_bounds c s t :
  nonneg_costs c ->
  (0 <= lev c s t <=
     Z.of_nat (length s) * cost_del c + Z.of_nat (length t) * cost_ins c)%Z /\
  ((Z.of_nat (length t) - Z.of_nat (length s)) * cost_ins c <= lev c s t)%Z /\
  ((Z.of_nat (length s) - Z.of_nat (length t)) * cost_del c <= lev c s t)%Z.
Proof.
  intros Hc. pose proof (lev_upper c s t) as Hup.
  pose proof (aligned_nonneg c s t _ Hc Hup).
  pose proof (aligned_length_gap c s t _ Hc Hup) as [? ?].
  pose proof (lev_lower c s t _ Hc (aligned_delete_insert c s t)).
  lia.
Qed.

Lemma lev_unit_bounds s t :
  (Z.abs (Z.of_nat (length s) - Z.of_nat (length t)) <=
     lev default_costs s t <=
   Z.max (Z.of_nat (length s)) (Z.of_nat (length t)))%Z.
Proof.
  assert (nonneg_costs default_costs) as Hc
    by (repeat split; cbv; discriminate).
  pose proof (lev_bounds default_costs s t Hc) as (_ & Hi & Hd).
  unfold cost_ins, cost_del in *. simpl fst in *. simpl snd in *.
  destruct (aligned_diagonal s t) as (k & Hk & Hle).
  pose proof (lev_lower default_costs s t k Hc Hk). lia.
Qed.

Lemma length_rev_take s i : i <= length s -> length (rev (take i s)) = i.
Proof. intros Hi. by rewrite length_rev, length_take_le. Qed.

(** Everything the constructor is known to return, in one place. *)
Lemma init_full s t c fuel :
  length s + length t <= fuel ->
  exists L es, __init__ fuel s t c = Ok L /\
    source L = s /\ target L = t /\
    shaped (length s + 1) (length t + 1) (D L) /\
    follows_recurrence s t c (D L) /\
    distance L = Ok (lev c (rev s) (rev t)) /\
    script_cost c (op_type <$> edit_ops L) = lev c (rev s) (rev t) /\
    edit_ops L = rev es /\ walk s t (length s) (length t) es.
Proof.
  intros Hfuel.
  destruct (init_spec s t c fuel Hfuel)
    as (L & HL & Hs & Ht & _ & _ & Hsh & Hcells & Hdist & Hcost & _).
  destruct (init_walk s t c fuel Hfuel) as (L' & es & HL' & Hes & Hwalk).
  rewrite HL in HL'. injection HL' as <-. by exists L, es.
Qed.

(** The cells of a matrix of the right shape that follows the recurrence. *)
Lemma follows_recurrence_Forall s t c D (P : Z -> Prop) :
  shaped (length s + 1) (length t + 1) D ->
  follows_recurrence s t c D ->
  (forall i j, i <= length s -> j <= length t -> P (cell_value c s t i j)) ->
  Forall (Forall P) D.
Proof.
  intros [Hlen Hrows] Hcells HP.
  apply Forall_forall. intros row [i Hrow]%list_elem_of_lookup.
  apply Forall_forall. intros v [j Hv]%list_elem_of_lookup.
  pose proof (lookup_lt_Some _ _ _ Hrow) as Hi.
  pose proof (lookup_lt_Some _ _ _ Hv) as Hj.
  rewrite (Hrows _ _ Hrow) in Hj.
  assert (getitem2 D i j = Ok v) as Hget by (apply getitem2_Ok; eauto).
  rewrite Hcells in Hget by lia. injection Hget as <-. apply HP; lia.
Qed.

End MoreRecurrenceFacts.

(** * Further theorems *)

Section MatrixTheorems.
Context {A : Type} `{EqDecision A}.
Implicit Types (s t : list A) (c : cost_model).

(** X1. For any cost triple the matrix has [m + 1] rows of [n + 1] cells
    each, and its top-left cell is 0. *)
Theorem X1_matrix_shape s t c :
  exists D0, __edit_distance s t c = Ok D0 /\
    length D0 = length s + 1 /\
    Forall (fun row => length row = length t + 1) D0 /\
    getitem2 D0 0 0 = Ok 0%Z.
Proof.
  destruct (edit_distance_spec s t c) as (D0 & HD0 & [Hlen Hrows] & Hcells).
  exists D0. do 2 (split; [done|]). split.
  - apply Forall_forall. intros row [i Hrow]%list_elem_of_lookup.
    by apply (Hrows i).
  - rewrite Hcells by lia. rewrite cell_value_0_l by lia. done.
Qed.

(** X2. For any cost triple every cell off row 0 and column 0 obeys the
    recurrence: [D[i+1][j+1]] is [D[i][j]] when [source[i]] equals
    [target[j]], and otherwise the least of [D[i+1][j] + insertion],
    [D[i][j+1] + deletion] and [D[i][j] + substitution]. *)
Theorem X2_interior_recurrence s t c :
  exists D0, __edit_distance s t c = Ok D0 /\
    forall i j a b, s !! i = Some a -> t !! j = Some b ->
      exists d l u v,
        getitem2 D0 i j = Ok d /\ getitem2 D0 (S i) j = Ok l /\
        getitem2 D0 i (S j) = Ok u /\ getitem2 D0 (S i) (S j) = Ok v /\
        v = if bool_decide (a = b) then d
            else Z.min (Z.min (l + cost_ins c) (u + cost_del c))
                       (d + cost_sub c).
Proof.
  destruct (edit_distance_spec s t c) as (D0 & HD0 & _ & Hcells).
  exists D0. split; [done|]. intros i j a b Ha Hb.
  pose proof (lookup_lt_Some _ _ _ Ha). pose proof (lookup_lt_Some _ _ _ Hb).
  exists (cell_value c s t i j), (cell_value c s t (S i) j),
    (cell_value c s t i (S j)), (cell_value c s t (S i) (S j)).
  do 4 (split; [apply Hcells; lia|]).
  by apply cell_value_S_S.
Qed.

(** X3. For non-negative costs every cell [D[i][j]] lies between 0 and
    the cost of [i] deletions and [j] insertions, and is at least
    [(j - i)] insertions and at least [(i - j)] deletions; so does the
    distance, with [i = m] and [j = n]. *)
Theorem X3_cell_bounds s t c :
  nonneg_costs c ->
  exists D0, __edit_distance s t c = Ok D0 /\
    (forall i j, i <= length s -> j <= length t ->
       exists v, getitem2 D0 i j = Ok v /\
         (0 <= v <= Z.of_nat i * cost_del c + Z.of_nat j * cost_ins c)%Z /\
         ((Z.of_nat j - Z.of_nat i) * cost_ins c <= v)%Z /\
         ((Z.of_nat i - Z.of_nat j) * cost_del c <= v)%Z) /\
    distance_of s t c = getitem2 D0 (length s) (length t).
Proof.
  intros Hc.
  destruct (edit_distance_spec s t c) as (D0 & HD0 & _ & Hcells).
  exists D0. split; [done|]. split.
  - intros i j Hi Hj. exists (cell_value c s t i j).
    split; [by apply Hcells|]. unfold cell_value.
    pose proof (lev_bounds c (rev (take i s)) (rev (take j t)) Hc) as Hb.
    by rewrite !length_rev_take in Hb.
  - rewrite distance_of_lev, Hcells by done. by rewrite cell_value_last.
Qed.

(** X4. With the costs (1, 1, 1) every cell [D[i][j]] lies between
    [|i - j|] and [max(i, j)]; in particular the distance lies between
    the difference of the two lengths and the larger length. *)
Theorem X4_unit_cost_bounds s t :
  exists D0, __edit_distance s t default_costs = Ok D0 /\
    (forall i j, i <= length s -> j <= length t ->
       exists v, getitem2 D0 i j = Ok v /\
         (Z.abs (Z.of_nat i - Z.of_nat j) <= v <=
          Z.max (Z.of_nat i) (Z.of_nat j))%Z) /\
    exists d, distance_of s t default_costs = Ok d /\
      (Z.abs (Z.of_nat (length s) - Z.of_nat (length t)) <= d <=
       Z.max (Z.of_nat (length s)) (Z.of_nat (length t)))%Z.
Proof.
  destruct (edit_distance_spec s t default_costs)
    as (D0 & HD0 & _ & Hcells).
  exists D0. split; [done|]. split.
  - intros i j Hi Hj. exists (cell_value default_costs s t i j).
    split; [by apply Hcells|]. unfold cell_value.
    pose proof (lev_unit_bounds (rev (take i s)) (rev (take j t))) as Hb.
    by rewrite !length_rev_take in Hb.
  - exists (lev default_costs (rev s) (rev t)).
    split; [apply distance_of_lev|].
    pose proof (lev_unit_bounds (rev s) (rev t)) as Hb.
    by rewrite !length_rev in Hb.
Qed.

(** X5. With positive costs the distance is 0 exactly when the two
    sequences are equal. *)
Theorem X5_zero_distance_iff_equal s t c :
  (0 < cost_ins c)%Z -> (0 < cost_del c)%Z -> (0 < cost_sub c)%Z ->
  distance_of s t c = Ok 0%Z <-> s = t.
Proof.
  intros Hi Hd Hs. rewrite distance_of_lev. split.
  - intros [= Hz].
    pose proof (lev_upper c (rev s) (rev t)) as Hup. rewrite Hz in Hup.
    destruct (aligned_zero c _ _ _ Hi Hd Hs Hup) as [_ Heq].
    specialize (Heq eq_refl).
    by rewrite <- (rev_involutive s), Heq, rev_involutive.
  - intros ->. by rewrite lev_refl.
Qed.

(** X14. When the insertion cost equals the deletion cost, the matrix of
    [(target, source)] is the transpose of the matrix of
    [(source, target)]. *)
Theorem X14_transposed_matrix s t c :
  cost_ins c = cost_del c ->
  exists D1 D2,
    __edit_distance s t c = Ok D1 /\ __edit_distance t s c = Ok D2 /\
    forall i j, i <= length s -> j <= length t ->
      exists v, getitem2 D1 i j = Ok v /\ getitem2 D2 j i = Ok v.
Proof.
  intros Heq.
  destruct (edit_distance_spec s t c) as (D1 & HD1 & _ & Hcells1).
  destruct (edit_distance_spec t s c) as (D2 & HD2 & _ & Hcells2).
  exists D1, D2. do 2 (split; [done|]). intros i j Hi Hj.
  exists (cell_value c s t i j). split; [by apply Hcells1|].
  rewrite Hcells2 by done. f_equal. unfold cell_value. by apply lev_sym.
Qed.

End MatrixTheorems.

Lemma elem_of_rev {X : Type} (x : X) (l : list X) : x ∈ rev l <-> x ∈ l.
Proof. rewrite !list_elem_of_In. symmetry. apply in_rev. Qed.

Section ScriptTheorems.
Context {A : Type} `{EqDecision A}.
Implicit Types (s t : list A) (c : cost_model).

(** X6. A sequence compared with itself, under any cost triple: the
    distance is 0 and the script is Match(0,0), Match(1,1), ... up to the
    last symbol. *)
Theorem X6_identical_sequences s c fuel :
  length s + length s <= fuel ->
  exists L, __init__ fuel s s c = Ok L /\
    distance L = Ok 0%Z /\
    edit_ops L = (fun k => Edit Match k k) <$> seq 0 (length s).
Proof.
  intros Hfuel.
  destruct (init_full s s c fuel Hfuel)
    as (L & es & HL & _ & _ & _ & _ & Hdist & _ & Hes & Hwalk).
  exists L. split; [done|]. split.
  - by rewrite Hdist, lev_refl.
  - rewrite Hes. by apply (walk_identical s es (length s)).
Qed.

(** X7. An empty source, under any cost triple: the distance is
    [len(target)] insertions and the script is Insertion(0,0),
    Insertion(0,1), ... one for each target symbol. *)
Theorem X7_empty_source t c fuel :
  length t <= fuel ->
  exists L, __init__ fuel [] t c = Ok L /\
    distance L = Ok (Z.of_nat (length t) * cost_ins c)%Z /\
    edit_ops L = (fun k => Edit Insertion 0 k) <$> seq 0 (length t).
Proof.
  intros Hfuel.
  destruct (init_full [] t c fuel Hfuel)
    as (L & es & HL & _ & _ & _ & _ & Hdist & _ & Hes & Hwalk).
  exists L. split; [done|]. split.
  - rewrite Hdist. simpl rev. by rewrite lev_nil_l, length_rev.
  - rewrite Hes. by apply (walk_row_0 [] t).
Qed.

(** X8. An empty target, under any cost triple: the distance is
    [len(source)] deletions and the script is Deletion(0,0),
    Deletion(1,0), ... one for each source symbol. *)
Theorem X8_empty_target s c fuel :
  length s <= fuel ->
  exists L, __init__ fuel s [] c = Ok L /\
    distance L = Ok (Z.of_nat (length s) * cost_del c)%Z /\
    edit_ops L = (fun k => Edit Deletion k 0) <$> seq 0 (length s).
Proof.
  intros Hfuel.
  destruct (init_full s [] c fuel) as
    (L & es & HL & _ & _ & _ & _ & Hdist & _ & Hes & Hwalk);
    [simpl; lia|].
  exists L. split; [done|]. split.
  - rewrite Hdist. simpl rev. by rewrite lev_nil_r, length_rev.
  - rewrite Hes. by apply (walk_column_0 s []).
Qed.

(** X9. The records of [edit_ops()] form one path from cell (0, 0) to
    cell (m, n): each record carries the cell reached so far, a Match or
    a Substitution moves one step down the diagonal, a Deletion one row
    down, an Insertion one column right.  Hence matches, substitutions
    and deletions number [m] together, matches, substitutions and
    insertions number [n], and the script has between [max(m, n)] and
    [m + n] records. *)
Theorem X9_edit_script_is_a_path s t c fuel :
  length s + length t <= fuel ->
  exists L, __init__ fuel s t c = Ok L /\
    path_end 0 0 (edit_ops L) = Some (length s, length t) /\
    count_type Match (edit_ops L) + count_type Substitution (edit_ops L) +
      count_type Deletion (edit_ops L) = length s /\
    count_type Match (edit_ops L) + count_type Substitution (edit_ops L) +
      count_type Insertion (edit_ops L) = length t /\
    length s `max` length t <= length (edit_ops L) <= length s + length t.
Proof.
  intros Hfuel.
  destruct (init_full s t c fuel Hfuel)
    as (L & es & HL & _ & _ & _ & _ & _ & _ & Hes & Hwalk).
  exists L. split; [done|]. rewrite Hes, !count_type_rev, length_rev.
  split; [by apply (walk_path s t)|].
  destruct (walk_counts s t es _ _ Hwalk) as [Hm Hn].
  do 2 (split; [done|]). by apply (walk_length s t).
Qed.

(** X10. Replaying [edit_ops()] always uses up the source and the target
    exactly and writes as many symbols as the target has; and when every
    Match record pairs two equal symbols, what it writes is the target. *)
Theorem X10_replay_uses_up_both_sequences s t c fuel :
  length s + length t <= fuel ->
  exists L w, __init__ fuel s t c = Ok L /\
    replay (op_type <$> edit_ops L) s t = Some w /\
    length w = length t /\
    ((forall e, e ∈ edit_ops L -> op_type e = Match ->
        s !! op_i e = t !! op_j e) ->
     transforms (op_type <$> edit_ops L) s t).
Proof.
  intros Hfuel.
  destruct (init_full s t c fuel Hfuel)
    as (L & es & HL & _ & _ & _ & _ & _ & _ & Hes & Hwalk).
  destruct (walk_replay s t es (length s) (length t) [] [] Hwalk)
    as (w & Hr & Hlen & Heq); [lia|lia|by rewrite !drop_all|].
  rewrite !app_nil_r in Hr.
  exists L, w. split; [done|]. rewrite Hes. do 2 (split; [done|]).
  intros Hall. unfold transforms. rewrite Hr, Heq, firstn_all; [done|].
  intros e He. apply Hall. by apply elem_of_rev.
Qed.

(** X11. For non-negative costs, when every Match record pairs two equal
    symbols, [edit_ops()] is a script that turns the source into the
    target at the least possible cost. *)
Theorem X11_optimal_when_matches_are_equal s t c fuel :
  nonneg_costs c -> length s + length t <= fuel ->
  exists L, __init__ fuel s t c = Ok L /\
    ((forall e, e ∈ edit_ops L -> op_type e = Match ->
        s !! op_i e = t !! op_j e) ->
     transforms (op_type <$> edit_ops L) s t /\
     forall ops, transforms ops s t ->
       (script_cost c (op_type <$> edit_ops L) <= script_cost c ops)%Z).
Proof.
  intros Hc Hfuel.
  destruct (init_full s t c fuel Hfuel)
    as (L & es & HL & _ & _ & _ & _ & _ & Hcost & Hes & Hwalk).
  destruct (walk_replay s t es (length s) (length t) [] [] Hwalk)
    as (w & Hr & Hlen & Heq); [lia|lia|by rewrite !drop_all|].
  rewrite !app_nil_r in Hr.
  exists L. split; [done|]. intros Hall. split.
  - unfold transforms. rewrite Hes, Hr, Heq, firstn_all; [done|].
    intros e He. apply Hall. rewrite Hes. by apply elem_of_rev.
  - rewrite Hcost. by apply (lev_min_cost c s t Hc).
Qed.

(** X12. A record other than Match is only reported at a cell whose two
    symbols differ: a Substitution(i, j) has [source[i] != target[j]], a
    Deletion(i, j) with [j > 0] has [source[i] != target[j-1]], and an
    Insertion(i, j) with [i > 0] has [source[i-1] != target[j]]. *)
Theorem X12_other_records_pair_different_symbols s t c fuel :
  length s + length t <= fuel ->
  exists L, __init__ fuel s t c = Ok L /\
    forall e, e ∈ edit_ops L ->
      match op_type e with
      | Match => True
      | Substitution => s !! op_i e <> t !! op_j e
      | Deletion => 0 < op_j e -> s !! op_i e <> t !! (op_j e - 1)
      | Insertion => 0 < op_i e -> s !! (op_i e - 1) <> t !! op_j e
      end.
Proof.
  intros Hfuel.
  destruct (init_full s t c fuel Hfuel)
    as (L & es & HL & _ & _ & _ & _ & _ & _ & Hes & Hwalk).
  exists L. split; [done|]. intros e He. rewrite Hes in He.
  apply (proj1 (elem_of_rev e es)) in He.
  by apply (walk_differs s t es _ _ Hwalk).
Qed.

(** X13. Negative costs are accepted: for any cost triple the constructor
    returns after at most [m + n] iterations of the backtrace loop, a
    larger budget changes nothing, and the costs of the records still add
    up to the distance. *)
Theorem X13_any_cost_triple s t c fuel :
  length s + length t <= fuel ->
  exists L, __init__ (length s + length t) s t c = Ok L /\
    __init__ fuel s t c = Ok L /\
    exists d, distance L = Ok d /\
      script_cost c (op_type <$> edit_ops L) = d.
Proof.
  intros Hfuel.
  destruct (init_full s t c (length s + length t))
    as (L & es & HL & _ & _ & _ & _ & Hdist & Hcost & _); [lia|].
  exists L. split; [done|]. split; [|by eexists].
  unfold __init__ in *.
  destruct (__edit_distance s t c) as [D0| |]; [|done..]. simpl in *.
  unfold __backtrace in *.
  destruct (backtrace_loop (length s + length t) D0 c
              (length s, length t, [])) as [st| |] eqn:Hloop; [|done..].
  by rewrite (backtrace_loop_more_fuel D0 c _ fuel _ st Hfuel Hloop).
Qed.

End ScriptTheorems.

(** X15. On a constructed object [print_distance_matrix] raises nothing:
    it appends to the output a header line and one line for each of the
    [m + 1] rows; and when every cell is between -9 and 99 every line has
    three characters for each of its [n + 2] columns, so the grid is
    aligned. *)
Theorem X15_print_distance_matrix (s t : list ascii) (c : cost_model)
    (fuel : nat) (out : stdout) :
  length s + length t <= fuel ->
  exists L, __init__ fuel s t c = Ok L /\
    print_distance_matrix L out =
      Ok (out ++ unlines (matrix_lines s t (D L))) /\
    length (matrix_lines s t (D L)) = length s + 2 /\
    (Forall (Forall (fun v => (-9 <= v <= 99)%Z)) (D L) ->
     Forall (fun l => length l = 3 * (length t + 2))
       (matrix_lines s t (D L))).
Proof.
  intros Hfuel.
  destruct (init_full s t c fuel Hfuel)
    as (L & es & HL & Hs & Ht & Hsh & _).
  exists L. split; [done|]. split; [|split].
  - rewrite <- Hs, <- Ht in Hsh.
    rewrite (print_distance_matrix_spec L out Hsh). by rewrite Hs, Ht.
  - apply length_matrix_lines. by destruct Hsh.
  - by apply matrix_lines_aligned.
Qed.

(** X16. With the costs (1, 1, 1) and sequences of at most 99 symbols the
    printed grid is aligned: every line has [3 * (n + 2)] characters. *)
Theorem X16_unit_cost_grid_is_aligned (s t : list ascii) (fuel : nat)
    (out : stdout) :
  length s + length t <= fuel -> length s <= 99 -> length t <= 99 ->
  exists L, __init__ fuel s t default_costs = Ok L /\
    print_distance_matrix L out =
      Ok (out ++ unlines (matrix_lines s t (D L))) /\
    Forall (fun l => length l = 3 * (length t + 2))
      (matrix_lines s t (D L)).
Proof.
  intros Hfuel Hm Hn.
  destruct (init_full s t default_costs fuel Hfuel)
    as (L & es & HL & Hs & Ht & Hsh & Hcells & _).
  exists L. split; [done|]. split.
  - rewrite <- Hs, <- Ht in Hsh.
    rewrite (print_distance_matrix_spec L out Hsh). by rewrite Hs, Ht.
  - apply matrix_lines_aligned; [done|].
    apply (follows_recurrence_Forall s t default_costs); [done..|].
    intros i j Hi Hj. unfold cell_value.
    pose proof (lev_unit_bounds (rev (take i s)) (rev (take j t))) as Hb.
    rewrite !length_rev_take in Hb by done. lia.
Qed.

(** X17. [print_edit_ops] appends the two heading lines and one line for
    each record of [edit_ops()], in order; for sequences of at most 99
    symbols every record line has 19 characters before its line end, so
    the columns of the table are aligned. *)
Theorem X17_print_edit_ops {A : Type} `{EqDecision A} (s t : list A)
    (c : cost_model) (fuel : nat) (out : stdout) :
  length s + length t <= fuel -> length s <= 99 -> length t <= 99 ->
  exists L, __init__ fuel s t c = Ok L /\
    print_edit_ops L out =
      out ++ edit_ops_heading ++ concat (edit_line <$> edit_ops L) /\
    Forall (fun e => length (edit_line e) = 20) (edit_ops L).
Proof.
  intros Hfuel Hm Hn.
  destruct (init_spec s t c fuel Hfuel)
    as (L & HL & _ & _ & _ & _ & _ & _ & _ & _ & Hrange).
  exists L. split; [done|]. split; [apply print_edit_ops_spec|].
  eapply Forall_impl; [exact Hrange|]. intros e He.
  unfold in_range in He.
  apply length_edit_line; destruct (op_type e); lia.
Qed.

(** ** The docstring's printed example *)

Example docstring_matrix :
  (L ← __init__ 10 (str "hello") (str "world") (2, 2, 1)%Z;
   out ← print_distance_matrix L []; Ok (text out)) =
  Ok (text (unlines [str " -  -  w  o  r  l  d ";
                     str " -  0  2  4  6  8 10 ";
                     str " h  2  1  3  5  7  9 ";
                     str " e  4  3  2  4  6  8 ";
                     str " l  6  5  4  3  4  6 ";
                     str " l  8  7  6  5  3  5 ";
                     str " o 10  9  7  7  5  4 "])).
Proof. vm_compute. reflexivity. Qed.

Example docstring_edit_ops :
  (L ← __init__ 10 (str "hello") (str "world") (2, 2, 1)%Z;
   Ok (text (print_edit_ops L []))) =
  Ok (text (unlines [str "Type           i  j";
                     str "--------------------";
                     str "Substitution   0  0";
                     str "Substitution   1  1";
                     str "Substitution   2  2";
                     str "Match          3  3";
                     str "Substitution   4  4"])).
Proof. vm_compute. reflexivity. Qed.

(** A cell of three digits makes its line longer than the header. *)
Example wide_cell_breaks_alignment :
  (L ← __init__ 2 (str "a") (str "b") (100, 100, 100)%Z;
   out ← print_distance_matrix L []; Ok (text out)) =
  Ok (text (unlines [str " -  -  b ";
                     str " -  0 100 ";
                     str " a 100 100 "])).
Proof. vm_compute. reflexivity. Qed.

(** ** The further theorems at concrete inputs *)

Lemma X3_witness :
  nonneg_costs (2, 2, 1)%Z /\
  exists D0, __edit_distance (str "hello") (str "world") (2, 2, 1)%Z = Ok D0 /\
    (forall i j, i <= length (str "hello") -> j <= length (str "world") ->
       exists v, getitem2 D0 i j = Ok v /\
         (0 <= v <= Z.of_nat i * cost_del (2, 2, 1) +
                    Z.of_nat j * cost_ins (2, 2, 1))%Z /\
         ((Z.of_nat j - Z.of_nat i) * cost_ins (2, 2, 1) <= v)%Z /\
         ((Z.of_nat i - Z.of_nat j) * cost_del (2, 2, 1) <= v)%Z) /\
    distance_of (str "hello") (str "world") (2, 2, 1)%Z =
      getitem2 D0 (length (str "hello")) (length (str "world")).
Proof.
  assert (nonneg_costs (2, 2, 1)%Z) as Hc by (repeat split; cbv; discriminate).
  split; [exact Hc|].
  exact (X3_cell_bounds (str "hello") (str "world") (2, 2, 1)%Z Hc).
Defined.

Lemma X5_witness :
  (0 < cost_ins (2, 2, 1))%Z /\ (0 < cost_del (2, 2, 1))%Z /\
  (0 < cost_sub (2, 2, 1))%Z /\
  (distance_of (str "abc") (str "abc") (2, 2, 1)%Z = Ok 0%Z <->
   str "abc" = str "abc").
Proof.
  do 3 (split; [reflexivity|]).
  apply (X5_zero_distance_iff_equal (str "abc") (str "abc") (2, 2, 1)%Z);
    reflexivity.
Defined.

Lemma X6_witness :
  length (str "abc") + length (str "abc") <= 6 /\
  exists L, __init__ 6 (str "abc") (str "abc") (3, 5, 7)%Z = Ok L /\
    distance L = Ok 0%Z /\
    edit_ops L = (fun k => Edit Match k k) <$> seq 0 (length (str "abc")).
Proof.
  split; [simpl; lia|].
  apply (X6_identical_sequences (str "abc") (3, 5, 7)%Z 6). simpl; lia.
Defined.

Lemma X7_witness :
  length (str "abc") <= 3 /\
  exists L, __init__ 3 [] (str "abc") (4, 1, 1)%Z = Ok L /\
    distance L = Ok (Z.of_nat (length (str "abc")) * cost_ins (4, 1, 1))%Z /\
    edit_ops L =
      (fun k => Edit Insertion 0 k) <$> seq 0 (length (str "abc")).
Proof.
  split; [simpl; lia|].
  apply (X7_empty_source (str "abc") (4, 1, 1)%Z 3). simpl; lia.
Defined.

Lemma X8_witness :
  length (str "abc") <= 3 /\
  exists L, __init__ 3 (str "abc") [] (1, 4, 1)%Z = Ok L /\
    distance L = Ok (Z.of_nat (length (str "abc")) * cost_del (1, 4, 1))%Z /\
    edit_ops L = (fun k => Edit Deletion k 0) <$> seq 0 (length (str "abc")).
Proof.
  split; [simpl; lia|].
  apply (X8_empty_target (str "abc") (1, 4, 1)%Z 3). simpl; lia.
Defined.

Lemma X9_witness :
  length (str "kitten") + length (str "sitting") <= 13 /\
  exists L, __init__ 13 (str "kitten") (str "sitting") default_costs = Ok L /\
    path_end 0 0 (edit_ops L) =
      Some (length (str "kitten"), length (str "sitting")) /\
    count_type Match (edit_ops L) + count_type Substitution (edit_ops L) +
      count_type Deletion (edit_ops L) = length (str "kitten") /\
    count_type Match (edit_ops L) + count_type Substitution (edit_ops L) +
      count_type Insertion (edit_ops L) = length (str "sitting") /\
    length (str "kitten") `max` length (str "sitting")
      <= length (edit_ops L)
      <= length (str "kitten") + length (str "sitting").
Proof.
  split; [simpl; lia|].
  apply (X9_edit_script_is_a_path (str "kitten") (str "sitting")
           default_costs 13).
  simpl; lia.
Defined.

Lemma X10_witness :
  length (str "ab") + length (str "abc") <= 5 /\
  exists L w, __init__ 5 (str "ab") (str "abc") default_costs = Ok L /\
    replay (op_type <$> edit_ops L) (str "ab") (str "abc") = Some w /\
    length w = length (str "abc") /\
    ((forall e, e ∈ edit_ops L -> op_type e = Match ->
        str "ab" !! op_i e = str "abc" !! op_j e) ->
     transforms (op_type <$> edit_ops L) (str "ab") (str "abc")).
Proof.
  split; [simpl; lia|].
  apply (X10_replay_uses_up_both_sequences (str "ab") (str "abc")
           default_costs 5).
  simpl; lia.
Defined.

Lemma X11_witness :
  nonneg_costs (2, 2, 1)%Z /\
  length (str "hello") + length (str "world") <= 10 /\
  exists L, __init__ 10 (str "hello") (str "world") (2, 2, 1)%Z = Ok L /\
    ((forall e, e ∈ edit_ops L -> op_type e = Match ->
        str "hello" !! op_i e = str "world" !! op_j e) ->
     transforms (op_type <$> edit_ops L) (str "hello") (str "world") /\
     forall ops, transforms ops (str "hello") (str "world") ->
       (script_cost (2, 2, 1) (op_type <$> edit_ops L) <=
        script_cost (2, 2, 1) ops)%Z).
Proof.
  assert (nonneg_costs (2, 2, 1)%Z) as Hc by (repeat split; cbv; discriminate).
  split; [exact Hc|]. split; [simpl; lia|].
  apply (X11_optimal_when_matches_are_equal (str "hello") (str "world")
           (2, 2, 1)%Z 10 Hc).
  simpl; lia.
Defined.

Lemma X12_witness :
  length (str "hello") + length (str "world") <= 10 /\
  exists L, __init__ 10 (str "hello") (str "world") (2, 2, 1)%Z = Ok L /\
    forall e, e ∈ edit_ops L ->
      match op_type e with
      | Match => True
      | Substitution => str "hello" !! op_i e <> str "world" !! op_j e
      | Deletion =>
          0 < op_j e -> str "hello" !! op_i e <> str "world" !! (op_j e - 1)
      | Insertion =>
          0 < op_i e -> str "hello" !! (op_i e - 1) <> str "world" !! op_j e
      end.
Proof.
  split; [simpl; lia|].
  apply (X12_other_records_pair_different_symbols (str "hello") (str "world")
           (2, 2, 1)%Z 10).
  simpl; lia.
Defined.

Lemma X13_witness :
  length (str "ab") + length (str "abc") <= 9 /\
  exists L,
    __init__ (length (str "ab") + length (str "abc")) (str "ab") (str "abc")
      (-1, -2, 3)%Z = Ok L /\
    __init__ 9 (str "ab") (str "abc") (-1, -2, 3)%Z = Ok L /\
    exists d, distance L = Ok d /\
      script_cost (-1, -2, 3)%Z (op_type <$> edit_ops L) = d.
Proof.
  split; [simpl; lia|].
  apply (X13_any_cost_triple (str "ab") (str "abc") (-1, -2, 3)%Z 9).
  simpl; lia.
Defined.

Lemma X14_witness :
  cost_ins (2, 2, 1)%Z = cost_del (2, 2, 1)%Z /\
  exists D1 D2,
    __edit_distance (str "hello") (str "world") (2, 2, 1)%Z = Ok D1 /\
    __edit_distance (str "world") (str "hello") (2, 2, 1)%Z = Ok D2 /\
    forall i j, i <= length (str "hello") -> j <= length (str "world") ->
      exists v, getitem2 D1 i j = Ok v /\ getitem2 D2 j i = Ok v.
Proof.
  split; [reflexivity|].
  apply (X14_transposed_matrix (str "hello") (str "world") (2, 2, 1)%Z).
  reflexivity.
Defined.

Lemma X15_witness :
  length (str "hello") + length (str "world") <= 10 /\
  exists L, __init__ 10 (str "hello") (str "world") (2, 2, 1)%Z = Ok L /\
    print_distance_matrix L [] =
      Ok ([] ++ unlines (matrix_lines (str "hello") (str "world") (D L))) /\
    length (matrix_lines (str "hello") (str "world") (D L)) =
      length (str "hello") + 2 /\
    (Forall (Forall (fun v => (-9 <= v <= 99)%Z)) (D L) ->
     Forall (fun l => length l = 3 * (length (str "world") + 2))
       (matrix_lines (str "hello") (str "world") (D L))).
Proof.
  split; [simpl; lia|].
  apply (X15_print_distance_matrix (str "hello") (str "world") (2, 2, 1)%Z
           10 []).
  simpl; lia.
Defined.

Lemma X16_witness :
  length (str "kitten") + length (str "sitting") <= 13 /\
  length (str "kitten") <= 99 /\ length (str "sitting") <= 99 /\
  exists L, __init__ 13 (str "kitten") (str "sitting") default_costs = Ok L /\
    print_distance_matrix L [] =
      Ok ([] ++ unlines (matrix_lines (str "kitten") (str "sitting") (D L))) /\
    Forall (fun l => length l = 3 * (length (str "sitting") + 2))
      (matrix_lines (str "kitten") (str "sitting") (D L)).
Proof.
  do 3 (split; [simpl; lia|]).
  apply (X16_unit_cost_grid_is_aligned (str "kitten") (str "sitting") 13 []);
    simpl; lia.
Defined.

Lemma X17_witness :
  length (str "hello") + length (str "world") <= 10 /\
  length (str "hello") <= 99 /\ length (str "world") <= 99 /\
  exists L, __init__ 10 (str "hello") (str "world") (2, 2, 1)%Z = Ok L /\
    print_edit_ops L [] =
      [] ++ edit_ops_heading ++ concat (edit_line <$> edit_ops L) /\
    Forall (fun e => length (edit_line e) = 20) (edit_ops L).
Proof.
  do 3 (split; [simpl; lia|]).
  apply (X17_print_edit_ops (str "hello") (str "world") (2, 2, 1)%Z 10 []);
    simpl; lia.
Defined.
